(** * Rainbow Sweeper: the board engine of [game/map.js]

    A shallow embedding of the [Map] and [Game] classes of [game/map.js]
    and of the turn globals of [game/ai.js], with the properties of mine
    placement, flood fill, flags and the match life cycle.

    Conventions of the embedding.
    - JavaScript numbers that hold coordinates, sizes and counters are
      integers here ([Z]): the grid is only ever indexed with them.
    - [undefined] results of [getCell] are [None].
    - [Math.random] is an oracle: the list of the successive pairs
      [(Math.floor(Math.random() * w), Math.floor(Math.random() * h))]
      that [generateBombs] will draw.  A run that needs more draws than
      the list holds has no result ([None]).  On a board with cells
      ([w > 0] and [h > 0]) every draw is a cell of the board
      ([draws_in]); on a board without cells the draws are off the board.
    - Recursion of [_flood] is bounded by a fuel argument; a run that
      exhausts it has no result ([None]).
    - The sizes and the mine count reach [Game.initialize] as the strings
      of the input fields; every use compares or computes with them as
      numbers, which is what [Z] stands for.
    - [Game.initialize] creates one button [cell-x-y] for every in-bounds
      cell before any engine method runs, so the [document.getElementById]
      test of [getCell] succeeds exactly on in-bounds cells.  Rendering
      writes to the DOM only: [updateCell] is modelled on the button it
      writes to, [updateMap] and [updateFlagCounter] are left out. *)

From stdpp Require Import base option list gmap strings.
From Stdlib Require Import ZArith Lia.

#[local] Open Scope Z_scope.

(** ** Cells *)

(** A cell is the array [[number, bomb, flag, covered]]. *)
Record Cell : Type := mkCell {
  number : Z;   (* [0] count of surrounding bombs *)
  bomb : Z;     (* [1] 0 = no bomb, 1 = bomb *)
  flag : Z;     (* [2] 0 = none, 1 = flagged *)
  covered : Z   (* [3] 1 = covered, 0 = uncovered *)
}.

(** [cell[i]]; the source only reads the indices 0 to 3. *)
Definition cell_get (c : Cell) (i : Z) : option Z :=
  match i with
  | 0 => Some (number c)
  | 1 => Some (bomb c)
  | 2 => Some (flag c)
  | 3 => Some (covered c)
  | _ => None
  end.

(** [cell[i] = v]; the source only writes the indices 0 to 3. *)
Definition cell_set (c : Cell) (i v : Z) : Cell :=
  match i with
  | 0 => mkCell v (bomb c) (flag c) (covered c)
  | 1 => mkCell (number c) v (flag c) (covered c)
  | 2 => mkCell (number c) (bomb c) v (covered c)
  | 3 => mkCell (number c) (bomb c) (flag c) v
  | _ => c
  end.

(** ** The Map class *)

(** [grid[y][x]] is the cell at column [x] of row [y]. *)
Record Map : Type := mkMap {
  w : Z;
  h : Z;
  grid : list (list Cell)
}.

(** The constructor: [h] rows of [w] cells [[0, 0, 0, 1]]. *)
Definition Map_new (width height : Z) : Map :=
  mkMap width height
    (replicate (Z.to_nat height) (replicate (Z.to_nat width) (mkCell 0 0 0 1))).

Definition inMap (m : Map) (x y : Z) : bool :=
  (0 <=? x) && (0 <=? y) && (x <? w m) && (y <? h m).

(** [grid[y][x]] behind the bounds check shared by [getCell] and [setCell]. *)
Definition cell_at (m : Map) (x y : Z) : option Cell :=
  if inMap m x y then
    row ← grid m !! Z.to_nat y; row !! Z.to_nat x
  else None.

Definition getCell (m : Map) (x y i : Z) : option Z :=
  c ← cell_at m x y; cell_get c i.

(** [setCell]: out of bounds it returns at once.  In bounds the row and the
    cell exist on every grid the constructor built, which is where
    [alter] and the JavaScript assignment agree. *)
Definition setCell (m : Map) (x y i v : Z) : Map :=
  if inMap m x y then
    mkMap (w m) (h m)
      (alter (alter (λ c, cell_set c i v) (Z.to_nat x)) (Z.to_nat y) (grid m))
  else m.

(** The offsets of the two nested [for (d = -1; d <= 1; d++)] loops. *)
Definition offsets : list Z := [-1; 0; 1].

(** The offset pairs [(dx, dy)] in the order of a loop nest whose outer
    loop runs over [dy] ([generateBombs]). *)
Definition block_dy_dx : list (Z * Z) :=
  dy ← offsets; dx ← offsets; [(dx, dy)].

(** The offset pairs in the order of a loop nest whose outer loop runs over
    [dx], without [(0, 0)] ([_flood]). *)
Definition around_dx_dy : list (Z * Z) :=
  dx ← offsets; dy ← offsets;
  if bool_decide (dx = 0 ∧ dy = 0) then [] else [(dx, dy)].

(** *** generateBombs *)

(** The [forbidden] set: the in-bounds cells of the 3x3 block around the
    first click.  The keys ["x,y"] of the source are the pairs [(x, y)]. *)
Definition forbidden_cells (m : Map) (startX startY : Z) : gset (Z * Z) :=
  foldl (λ (acc : gset (Z * Z)) '(dx, dy),
           if inMap m (startX + dx) (startY + dy)
           then acc ∪ {[ (startX + dx, startY + dy) ]} else acc)
        ∅ block_dy_dx.

(** One step of the loop that updates the numbers:
    [setCell(cx, cy, 0, getCell(cx, cy, 0) + 1)] under [inMap(cx, cy)]. *)
Definition bump (m : Map) (cx cy : Z) : Map :=
  if inMap m cx cy then
    match getCell m cx cy 0 with
    | Some n => setCell m cx cy 0 (n + 1)
    | None => m   (* not reached on a constructed grid *)
    end
  else m.

(** The loop nest that updates the numbers around [(x, y)], as a fold over
    the offset pairs. *)
Definition bumps (x y : Z) (m : Map) (ds : list (Z * Z)) : Map :=
  foldl (λ acc '(dx, dy), bump acc (x + dx) (y + dy)) m ds.

(** Place a bomb at [(x, y)] and update the numbers of the 3x3 block. *)
Definition placeBomb (m : Map) (x y : Z) : Map :=
  bumps x y (setCell m x y 1 1) block_dy_dx.

(** The [while (count < bombCount)] loop, one draw per iteration. *)
Fixpoint generateBombs_loop (forbidden : gset (Z * Z)) (bombCount : Z)
    (draws : list (Z * Z)) (count : Z) (m : Map) : option (Map * list (Z * Z)) :=
  if count <? bombCount then
    match draws with
    | [] => None
    | (x, y) :: rest =>
        if bool_decide ((x, y) ∈ forbidden) then
          generateBombs_loop forbidden bombCount rest count m
        else if bool_decide (getCell m x y 1 = Some 1) then
          generateBombs_loop forbidden bombCount rest count m
        else
          generateBombs_loop forbidden bombCount rest (count + 1) (placeBomb m x y)
    end
  else Some (m, draws).

Definition generateBombs (m : Map) (bombCount startX startY : Z)
    (draws : list (Z * Z)) : option (Map * list (Z * Z)) :=
  generateBombs_loop (forbidden_cells m startX startY) bombCount draws 0 m.

(** The cells in the order of [for y { for x { ... } }]. *)
Definition all_cells (m : Map) : list (Z * Z) :=
  y ← seqZ 0 (h m); x ← seqZ 0 (w m); [(x, y)].

(** *** revealBombs *)

(** The body of the loop nest: uncover the cell when it holds a bomb. *)
Definition reveal_if_bomb (acc : Map) (p : Z * Z) : Map :=
  if bool_decide (getCell acc p.1 p.2 1 = Some 1)
  then setCell acc p.1 p.2 3 0 else acc.

Definition revealBombs (m : Map) : Map :=
  foldl reveal_if_bomb m (all_cells m).

(** *** checkWin *)

Definition checkWin (m : Map) : bool :=
  forallb (λ '(x, y),
             negb (bool_decide (getCell m x y 1 = Some 0)
                   && bool_decide (getCell m x y 3 = Some 1)))
          (all_cells m).

(** *** floodFill and _flood *)

(** The [visited] array of [floodFill]: [visited[x][y]], [w] columns of
    [h] booleans. *)
Abbreviation Visited := (list (list bool)).

Definition visited_new (m : Map) : Visited :=
  replicate (Z.to_nat (w m)) (replicate (Z.to_nat (h m)) false).

(** [visited[x][y]] as a condition; it is only read behind [inMap]. *)
Definition vget (v : Visited) (x y : Z) : bool :=
  default false (col ← v !! Z.to_nat x; col !! Z.to_nat y).

(** [visited[x][y] = true]; [_flood] only runs on in-bounds cells. *)
Definition vset (v : Visited) (x y : Z) : Visited :=
  alter (<[Z.to_nat y := true]>) (Z.to_nat x) v.

(** The state threaded through [_flood]: the board, the [visited] array
    and, as a ghost log, the cells [_flood] was invoked on, in call order. *)
Record Flood : Type := mkFlood {
  fl_map : Map;
  fl_visited : Visited;
  fl_calls : list (Z * Z)
}.

(** The body of the loop nest of [_flood]: recurse into the neighbour at
    offset [d] when it is on the board and not yet visited.  [rec] is the
    recursive call. *)
Definition visit_neighbour (rec : Z → Z → Flood → option Flood) (x y : Z)
    (acc : option Flood) (d : Z * Z) : option Flood :=
  s ← acc;
  if inMap (fl_map s) (x + d.1) (y + d.2)
     && negb (vget (fl_visited s) (x + d.1) (y + d.2))
  then rec (x + d.1) (y + d.2) s
  else Some s.

Fixpoint _flood (fuel : nat) (x y : Z) (st : Flood) : option Flood :=
  match fuel with
  | O => None
  | S fuel' =>
      let m1 := setCell (fl_map st) x y 3 0 in
      let st1 := mkFlood m1 (vset (fl_visited st) x y) (fl_calls st ++ [(x, y)]) in
      if bool_decide (getCell m1 x y 0 ≠ Some 0) then Some st1
      else foldl (visit_neighbour (_flood fuel') x y) (Some st1) around_dx_dy
  end.

(** [floodFill]; the result carries the log of the [_flood] calls. *)
Definition floodFill (fuel : nat) (m : Map) (startX startY : Z)
    : option (Map * list (Z * Z)) :=
  let empty := bool_decide (getCell m startX startY 0 = Some 0) in
  let m1 := setCell m startX startY 3 0 in
  if empty then
    st ← _flood fuel startX startY (mkFlood m1 (visited_new m1) []);
    Some (fl_map st, fl_calls st)
  else Some (m1, []).

(** ** The turn globals of ai.js *)

(** [currentTurn], [aiMode] and [aiThinking] are top-level [let] bindings
    of [ai.js]; [aiMode] is [null] until a difficulty is chosen. *)
Record AIGlobals : Type := mkAI {
  currentTurn : string;
  aiMode : option string;
  aiThinking : bool
}.

(** The globals as [map.js] sees them: [None] when [ai.js] is not loaded
    and every [typeof] test answers ['undefined']. *)
Definition AIEnv : Type := option AIGlobals.

(** The guards at the head of [cellClicked]; [true] lets the click through. *)
Definition turn_gate (ai : AIEnv) : bool :=
  match ai with
  | None => true
  | Some a =>
      if String.eqb (currentTurn a) "ai" then negb (aiThinking a)
      else if negb (String.eqb (currentTurn a) "player") then false
      else negb (aiThinking a)
  end.

(** [endPlayerTurn] up to the timers it starts: it hands the turn to the
    AI, and [aiMove] raises [aiThinking]. *)
Definition endPlayerTurn (a : AIGlobals) : AIGlobals :=
  match aiMode a with
  | None => a
  | Some _ =>
      if String.eqb (currentTurn a) "player"
      then mkAI "ai" (aiMode a) true
      else a
  end.

(** The call of [endPlayerTurn] at the end of a player's reveal. *)
Definition after_player_move (ai : AIEnv) : AIEnv :=
  match ai with
  | None => None
  | Some a =>
      match aiMode a with
      | Some _ =>
          if String.eqb (currentTurn a) "player" then Some (endPlayerTurn a)
          else Some a
      | None => Some a
      end
  end.

(** ** The Game class *)

(** The class name last passed to [setStatus]. *)
Inductive Status : Type := StatusNone | StatusPlaying | StatusWon | StatusLost.

Record Game : Type := mkGame {
  started : bool;
  dead : bool;
  bombs : Z;
  flags : Z;
  status : Status
}.

(** The [Game] object, its [map], the globals of [ai.js] and the random
    oracle. *)
Record State : Type := mkState {
  game : Game;
  map : Map;
  ai : AIEnv;
  random : list (Z * Z)
}.

(** [Game.initialize(width, height, bombs)]. *)
Definition initialize (width height nbombs : Z) (env : AIEnv)
    (draws : list (Z * Z)) : State :=
  mkState (mkGame false false nbombs nbombs StatusNone)
          (Map_new width height) env draws.

(** [Game.start(startX, startY)]. *)
Definition start (startX startY : Z) (s : State) : option State :=
  let g := game s in
  '(m, rest) ← generateBombs (map s) (bombs g) startX startY (random s);
  Some (mkState (mkGame true (dead g) (bombs g) (bombs g) StatusPlaying)
                m (ai s) rest).

Inductive Result : Type := Win | Lose | Other.

(** [Game.finish(result)].  The resets of [window.currentTurn] and
    [window.aiThinking] do not reach the [let] bindings of [ai.js], which
    are no properties of [window]; the buttons it disables belong to the
    page. *)
Definition finish (r : Result) (s : State) : State :=
  let g := game s in
  match r with
  | Win => mkState (mkGame false (dead g) (bombs g) (flags g) StatusWon)
                   (map s) (ai s) (random s)
  | Lose => mkState (mkGame false (dead g) (bombs g) (flags g) StatusLost)
                    (revealBombs (map s)) (ai s) (random s)
  | Other => mkState (mkGame false (dead g) (bombs g) (flags g) StatusLost)
                     (map s) (ai s) (random s)
  end.

(** [Game.placeFlag()]: the answer and the game. *)
Definition placeFlag (g : Game) : bool * Game :=
  if flags g <? 1 then (false, g)
  else (true, mkGame (started g) (dead g) (bombs g) (flags g - 1) (status g)).

(** [Game.removeFlag()]. *)
Definition removeFlag (g : Game) : Game :=
  mkGame (started g) (dead g) (bombs g) (flags g + 1) (status g).

Definition with_map (s : State) (m : Map) : State :=
  mkState (game s) m (ai s) (random s).

(** ** Clicks *)

(** The statements of [cellClicked] that follow the turn guards and the
    first-click call of [Game.start]: the flag test, the bomb test and the
    uncovering. *)
Definition reveal (fuel : nat) (x y : Z) (s1 : State) : option (bool * State) :=
  if bool_decide (getCell (map s1) x y 2 = Some 1) then Some (false, s1)
  else if bool_decide (getCell (map s1) x y 1 = Some 1) then
    Some (false, finish Lose (with_map s1 (setCell (map s1) x y 3 0)))
  else if bool_decide (getCell (map s1) x y 3 = Some 1) then
    '(m2, _) ← floodFill fuel (map s1) x y;
    let s2 := with_map s1 m2 in
    if checkWin m2 then Some (true, finish Win s2)
    else Some (true, mkState (game s2) (map s2) (after_player_move (ai s2)) (random s2))
  else Some (false, s1).

(** [Map.cellClicked(x, y)]: the returned boolean and the new state. *)
Definition cellClicked (fuel : nat) (x y : Z) (s : State) : option (bool * State) :=
  if negb (turn_gate (ai s)) then Some (false, s)
  else
    s1 ← (if started (game s) then Some s else start x y s);
    reveal fuel x y s1.

(** [Map.cellRightClicked(x, y)]. *)
Definition cellRightClicked (x y : Z) (s : State) : State :=
  if bool_decide (getCell (map s) x y 3 = Some 1) then
    if bool_decide (getCell (map s) x y 2 = Some 0) then
      let '(ok, g) := placeFlag (game s) in
      if ok then mkState g (setCell (map s) x y 2 1) (ai s) (random s)
      else mkState g (map s) (ai s) (random s)
    else
      mkState (removeFlag (game s)) (setCell (map s) x y 2 0) (ai s) (random s)
  else s.

(** ** Runs of the engine *)

(** What can happen to a board between its construction and its
    replacement: the two click handlers, direct calls of the methods of
    [Map], and the page changing the globals of [ai.js] (its timers and
    difficulty buttons). *)
Inductive Op : Type :=
  | OpCellClicked (fuel : nat) (x y : Z)
  | OpCellRightClicked (x y : Z)
  | OpGenerateBombs (bombCount startX startY : Z)
  | OpFloodFill (fuel : nat) (x y : Z)
  | OpRevealBombs
  | OpGlobals (env : AIEnv).

Definition step (s : State) (o : Op) : option State :=
  match o with
  | OpCellClicked fuel x y => snd <$> cellClicked fuel x y s
  | OpCellRightClicked x y => Some (cellRightClicked x y s)
  | OpGenerateBombs n sx sy =>
      '(m, rest) ← generateBombs (map s) n sx sy (random s);
      Some (mkState (game s) m (ai s) rest)
  | OpFloodFill fuel x y =>
      '(m, _) ← floodFill fuel (map s) x y; Some (with_map s m)
  | OpRevealBombs => Some (with_map s (revealBombs (map s)))
  | OpGlobals env => Some (mkState (game s) (map s) env (random s))
  end.

Fixpoint run (s : State) (ops : list Op) : option State :=
  match ops with
  | [] => Some s
  | o :: ops' => s' ← step s o; run s' ops'
  end.

(** * Vocabulary of the properties *)

(** The grid has [h] rows of [w] cells, as the constructor builds it. *)
Definition wf (m : Map) : Prop :=
  length (grid m) = Z.to_nat (h m) ∧
  Forall (λ row, length row = Z.to_nat (w m)) (grid m).

(** [(a, b)] lies in the 3x3 block centred on [(x, y)]. *)
Definition near (x y a b : Z) : Prop :=
  -1 <= a - x <= 1 ∧ -1 <= b - y <= 1.

#[global] Instance near_dec x y a b : Decision (near x y a b).
Proof. unfold near. apply _. Defined.

Definition inc_number (c : Cell) : Cell :=
  mkCell (number c + 1) (bomb c) (flag c) (covered c).

(** What [placeBomb] at [(x, y)] does to the cell at [(a, b)]. *)
Definition place_cell (x y a b : Z) (c : Cell) : Cell :=
  mkCell (number c + (if decide (near x y a b) then 1 else 0))
         (if decide ((a, b) = (x, y)) then 1 else bomb c)
         (flag c) (covered c).

(** The test [getCell(x, y, 1) === 1]. *)
Definition mined (m : Map) (x y : Z) : Prop := getCell m x y 1 = Some 1.

#[global] Instance mined_dec m x y : Decision (mined m x y).
Proof. unfold mined. apply _. Defined.

(** The number of cells that hold a bomb. *)
Definition count_bombs (m : Map) : nat :=
  length (filter (λ p, mined m p.1 p.2) (all_cells m)).

(** The number of mined cells in the 3x3 block centred on [(x, y)], the
    cell itself included. *)
Definition block_count (m : Map) (x y : Z) : Z :=
  Z.of_nat (length (filter (λ d, mined m (x + d.1) (y + d.2)) block_dy_dx)).

(** The number of mined cells among the eight neighbours of [(x, y)]. *)
Definition around_count (m : Map) (x y : Z) : Z :=
  Z.of_nat (length (filter (λ d, mined m (x + d.1) (y + d.2)) around_dx_dy)).

(** Every number is the count of the mines of its 3x3 block. *)
Definition consistent (m : Map) : Prop :=
  ∀ a b c, cell_at m a b = Some c → number c = block_count m a b.

(** The flag and covered attributes of every cell agree. *)
Definition same_flags_covered (m m' : Map) : Prop :=
  ∀ a b, getCell m' a b 2 = getCell m a b 2 ∧
         getCell m' a b 3 = getCell m a b 3.

(** Every draw is a cell of the board, as
    [Math.floor(Math.random() * w)] and [Math.floor(Math.random() * h)]
    are on a board with cells. *)
Definition draws_in (m : Map) (draws : list (Z * Z)) : Prop :=
  Forall (λ p, inMap m p.1 p.2 = true) draws.

(** A board as it is before placement: no number and no bomb yet (flags
    may already be set). *)
Definition unmined (m : Map) : Prop :=
  ∀ a b c, cell_at m a b = Some c → number c = 0 ∧ bomb c = 0.

(** What a completed run of the placement loop has done. *)
Record placed (forbidden : gset (Z * Z)) (k : Z) (m m' : Map) : Prop := {
  placed_wf : wf m';
  placed_w : w m' = w m;
  placed_h : h m' = h m;
  placed_count : Z.of_nat (count_bombs m') = Z.of_nat (count_bombs m) + k;
  placed_new : ∀ a b, mined m' a b → mined m a b ∨ (a, b) ∉ forbidden;
  placed_old : ∀ a b, mined m a b → mined m' a b;
  placed_consistent : consistent m → consistent m';
  placed_flags : same_flags_covered m m'
}.

(** The [visited] array has [w] columns of [h] entries. *)
Definition vwf (m : Map) (v : Visited) : Prop :=
  length v = Z.to_nat (w m) ∧
  Forall (λ col, length col = Z.to_nat (h m)) v.

(** The number of cells of the board not yet marked in [visited]. *)
Definition unvisited (m : Map) (v : Visited) : nat :=
  length (filter (λ p, vget v p.1 p.2 = false) (all_cells m)).

Definition uncover (c : Cell) : Cell :=
  mkCell (number c) (bomb c) (flag c) 0.

(** What a run of [_flood] from [st] to [st'] has done, [new] being the
    cells it was invoked on, in call order. *)
Record flooded (st st' : Flood) (new : list (Z * Z)) : Prop := {
  flooded_wf : wf (fl_map st');
  flooded_vwf : vwf (fl_map st') (fl_visited st');
  flooded_w : w (fl_map st') = w (fl_map st);
  flooded_h : h (fl_map st') = h (fl_map st);
  flooded_calls : fl_calls st' = fl_calls st ++ new;
  flooded_NoDup : NoDup new;
  flooded_fresh : ∀ a b, (a, b) ∈ new →
    inMap (fl_map st) a b = true ∧ vget (fl_visited st) a b = false;
  flooded_marks : ∀ a b, inMap (fl_map st) a b = true →
    (vget (fl_visited st') a b = true ↔
     vget (fl_visited st) a b = true ∨ (a, b) ∈ new);
  flooded_cells : ∀ a b,
    cell_at (fl_map st') a b =
    (if decide ((a, b) ∈ new) then uncover else id) <$> cell_at (fl_map st) a b
}.

(** Every cell of [cells] with number 0 has all its neighbours on the
    board marked in [v]. *)
Definition closed (m : Map) (v : Visited) (cells : list (Z * Z)) : Prop :=
  ∀ a b d, (a, b) ∈ cells → getCell m a b 0 = Some 0 →
    d ∈ around_dx_dy → inMap m (a + d.1) (b + d.2) = true →
    vget v (a + d.1) (b + d.2) = true.

(** Every cell of [cells] is [(x, y)] or lies in the 3x3 block of a cell
    with number 0. *)
Definition justified (m : Map) (x y : Z) (cells : list (Z * Z)) : Prop :=
  ∀ a b, (a, b) ∈ cells →
    (a, b) = (x, y) ∨ ∃ p q, getCell m p q 0 = Some 0 ∧ near p q a b.

(** A completed call [_flood(x, y, visited)] from [st] to [st'], which
    recursed into the cells [rest]. *)
Definition flood_run (x y : Z) (st st' : Flood) (rest : list (Z * Z)) : Prop :=
  flooded st st' ((x, y) :: rest) ∧
  closed (fl_map st) (fl_visited st') ((x, y) :: rest) ∧
  justified (fl_map st) x y ((x, y) :: rest).

(** What [visited] holds is kept. *)
Definition marks_kept (m : Map) (v v' : Visited) : Prop :=
  ∀ a b, inMap m a b = true → vget v a b = true → vget v' a b = true.

(** What a completed [floodFill(x, y)] from [m] to [m'] has done, [calls]
    being the cells [_flood] was invoked on. *)
Record filled (m : Map) (x y : Z) (m' : Map) (calls : list (Z * Z)) : Prop := {
  filled_wf : wf m';
  filled_w : w m' = w m;
  filled_h : h m' = h m;
  filled_NoDup : NoDup calls;
  filled_inMap : ∀ a b, (a, b) ∈ calls → inMap m a b = true;
  filled_cells : ∀ a b,
    cell_at m' a b =
    (if decide ((a, b) = (x, y) ∨ (a, b) ∈ calls) then uncover else id)
      <$> cell_at m a b;
  filled_start : getCell m x y 0 = Some 0 ↔ (x, y) ∈ calls;
  filled_empty : getCell m x y 0 ≠ Some 0 → calls = [];
  filled_closed : ∀ a b d,
    (a, b) ∈ calls → getCell m a b 0 = Some 0 →
    d ∈ around_dx_dy → inMap m (a + d.1) (b + d.2) = true →
    (a + d.1, b + d.2) ∈ calls;
  filled_justified : ∀ a b, (a, b) ∈ calls →
    (a, b) = (x, y) ∨ ∃ p q, getCell m p q 0 = Some 0 ∧ near p q a b
}.

(** From [m] to [m'] cells were uncovered and nothing else happened. *)
Definition only_uncovers (m m' : Map) : Prop :=
  ∀ a b, cell_at m' a b = cell_at m a b ∨
         cell_at m' a b = uncover <$> cell_at m a b.

(** A cell that is uncovered in [m] is uncovered in [m']. *)
Definition keeps_uncovered (m m' : Map) : Prop :=
  ∀ a b, getCell m a b 3 = Some 0 → getCell m' a b 3 = Some 0.

(** The match is over: [Game.finish] has run and no reveal has restarted
    the match since. *)
Definition terminal (s : State) : Prop :=
  started (game s) = false ∧
  (status (game s) = StatusWon ∨ status (game s) = StatusLost).

(** The states of a board that was constructed by [Game.initialize] with
    in-bounds draws ahead. *)
Definition reachable (s : State) : Prop :=
  ∃ width height nbombs env draws ops,
    draws_in (Map_new width height) draws ∧
    run (initialize width height nbombs env draws) ops = Some s.

(** The number and bomb attributes of every cell agree, on boards of the
    same size. *)
Definition same_mines (m m' : Map) : Prop :=
  w m' = w m ∧ h m' = h m ∧
  ∀ a b, getCell m' a b 0 = getCell m a b 0 ∧
         getCell m' a b 1 = getCell m a b 1.

(** The board is well formed, its numbers count the mines around them,
    and the draws ahead are cells of the board. *)
Definition sound (s : State) : Prop :=
  wf (map s) ∧ consistent (map s) ∧ draws_in (map s) (random s).

(** The cells of the board outside the forbidden zone of a first click at
    [(startX, startY)]. *)
Definition free_cells (m : Map) (startX startY : Z) : list (Z * Z) :=
  filter (λ p, p ∉ forbidden_cells m startX startY) (all_cells m).

(** The cells a placement for a click at [(startX, startY)] can still
    mine: on the board, without a bomb, outside the forbidden zone. *)
Definition room_cells (m : Map) (startX startY : Z) : list (Z * Z) :=
  filter (λ p, ¬ mined m p.1 p.2 ∧ p ∉ forbidden_cells m startX startY)
         (all_cells m).

(** * Rendering *)

(** What [updateCell] writes into [btn.textContent]: the flag, the covered
    tile, the bomb, a number, or the empty string. *)
Inductive Text : Type :=
  | TextFlag | TextCovered | TextBomb | TextNumber (n : Z) | TextEmpty.

(** The button [cell-x-y] as far as [updateCell] touches it. *)
Record Button : Type := mkButton {
  textContent : Text;
  color : string;      (* [btn.style.color] *)
  disabled : bool
}.

(** The [switch (number)] of [updateCell]: a colour for 1 to 8, and the
    colour the button has for every other number. *)
Definition number_color (n : Z) (old : string) : string :=
  match n with
  | 1 => "blue"
  | 2 => "green"
  | 3 => "red"
  | 4 => "darkblue"
  | 5 => "brown"
  | 6 => "turquoise"
  | 7 => "black"
  | 8 => "gray"
  | _ => old
  end.

(** [Map.updateCell(x, y)] on the button of the cell. *)
Definition updateCell (m : Map) (x y : Z) (btn : Button) : Button :=
  if bool_decide (getCell m x y 2 = Some 1) then
    mkButton TextFlag (color btn) (disabled btn)
  else if bool_decide (getCell m x y 3 = Some 1) then
    mkButton TextCovered (color btn) (disabled btn)
  else if bool_decide (getCell m x y 1 = Some 1) then
    mkButton TextBomb (color btn) (disabled btn)
  else
    match getCell m x y 0 with
    | Some n =>
        if 0 <? n then mkButton (TextNumber n) (number_color n (color btn)) true
        else mkButton TextEmpty (color btn) true
    | None => mkButton TextEmpty (color btn) true
    end.

(** * Further vocabulary *)

(** The cells [floodFill(x, y)] can reach: the start, and every neighbour
    on the board of a reached cell with number 0. *)
Inductive flood_reach (m : Map) (x y : Z) : Z → Z → Prop :=
  | reach_start : inMap m x y = true → flood_reach m x y x y
  | reach_step a b d :
      flood_reach m x y a b → getCell m a b 0 = Some 0 →
      d ∈ around_dx_dy → inMap m (a + d.1) (b + d.2) = true →
      flood_reach m x y (a + d.1) (b + d.2).

(** No cell without a bomb is still covered: what [checkWin] tests. *)
Definition all_safe_uncovered (m : Map) : Prop :=
  ∀ a b, inMap m a b = true →
    ¬ (getCell m a b 1 = Some 0 ∧ getCell m a b 3 = Some 1).

(** The test [getCell(x, y, 2) === 1]. *)
Definition flagged (m : Map) (x y : Z) : Prop := getCell m x y 2 = Some 1.

#[global] Instance flagged_dec m x y : Decision (flagged m x y).
Proof. unfold flagged. apply _. Defined.

(** The number of flags on the board. *)
Definition count_flags (m : Map) : nat :=
  length (filter (λ p, flagged m p.1 p.2) (all_cells m)).

(** Every flag attribute is 0 or 1. *)
Definition binary_flags (m : Map) : Prop :=
  ∀ a b v, getCell m a b 2 = Some v → v = 0 ∨ v = 1.

(** A run of [_flood(x, y)] from [st] to [st'] kept the size of the board
    and its numbers and was invoked only on cells [floodFill] can reach
    from [(x, y)]. *)
Definition reaches_only (x y : Z) (st st' : Flood) : Prop :=
  w (fl_map st') = w (fl_map st) ∧ h (fl_map st') = h (fl_map st) ∧
  (∀ a b, getCell (fl_map st') a b 0 = getCell (fl_map st) a b 0) ∧
  ∃ new, fl_calls st' = fl_calls st ++ new ∧
         ∀ a b, (a, b) ∈ new → flood_reach (fl_map st) x y a b.

(** * Properties *)

(** ** Cells and the accessors *)

Lemma inMap_spec m x y :
  inMap m x y = true ↔ 0 <= x < w m ∧ 0 <= y < h m.
Proof. unfold inMap. rewrite !andb_true_iff. lia. Qed.

Lemma w_setCell m x y i v : w (setCell m x y i v) = w m.
Proof. unfold setCell. by destruct (inMap m x y). Qed.

Lemma h_setCell m x y i v : h (setCell m x y i v) = h m.
Proof. unfold setCell. by destruct (inMap m x y). Qed.

Lemma inMap_setCell m x y i v a b :
  inMap (setCell m x y i v) a b = inMap m a b.
Proof. unfold inMap. by rewrite w_setCell, h_setCell. Qed.

Lemma wf_new width height : wf (Map_new width height).
Proof.
  split; simpl.
  - by rewrite length_replicate.
  - apply Forall_replicate. by rewrite length_replicate.
Qed.

Lemma wf_setCell m x y i v : wf m → wf (setCell m x y i v).
Proof.
  intros [Hlen Hrows]. unfold setCell. destruct (inMap m x y); [|done].
  split; simpl.
  - by rewrite length_alter.
  - apply Forall_lookup. intros k row Hk.
    destruct (decide (k = Z.to_nat y)) as [->|Hne].
    + rewrite list_lookup_alter_eq in Hk.
      destruct (grid m !! Z.to_nat y) as [row0|] eqn:Hrow; simplify_eq/=.
      rewrite length_alter. by eapply (Forall_lookup_1 _ _ _ _ Hrows).
    + rewrite list_lookup_alter_ne in Hk by done.
      by eapply (Forall_lookup_1 _ _ _ _ Hrows).
Qed.

(** On a well-formed grid every in-bounds cell exists. *)
Lemma cell_at_is_Some m x y :
  wf m → inMap m x y = true → is_Some (cell_at m x y).
Proof.
  intros [Hlen Hrows] Hin. unfold cell_at. rewrite Hin.
  apply inMap_spec in Hin.
  destruct (lookup_lt_is_Some_2 (grid m) (Z.to_nat y)) as [row Hrow]; [lia|].
  rewrite Hrow. simpl. apply lookup_lt_is_Some_2.
  rewrite (Forall_lookup_1 _ _ _ _ Hrows Hrow). lia.
Qed.

Lemma cell_at_new width height x y :
  inMap (Map_new width height) x y = true →
  cell_at (Map_new width height) x y = Some (mkCell 0 0 0 1).
Proof.
  intros Hin. unfold cell_at. rewrite Hin. apply inMap_spec in Hin.
  simpl in *. rewrite lookup_replicate_2 by lia. simpl.
  by rewrite lookup_replicate_2 by lia.
Qed.

Lemma cell_at_inMap m x y c : cell_at m x y = Some c → inMap m x y = true.
Proof. unfold cell_at. by destruct (inMap m x y). Qed.

(** The one fact about [setCell] everything else rests on: it rewrites
    the addressed slot of the addressed cell and nothing else. *)
Lemma cell_at_setCell m x y i v a b :
  cell_at (setCell m x y i v) a b =
  if decide ((a, b) = (x, y))
  then (λ c, cell_set c i v) <$> cell_at m a b
  else cell_at m a b.
Proof.
  unfold cell_at. rewrite inMap_setCell.
  unfold setCell. destruct (inMap m x y) eqn:Hxy.
  - destruct (inMap m a b) eqn:Hab; [|by case_decide].
    apply inMap_spec in Hxy, Hab. simpl. case_decide as Heq.
    + simplify_eq. rewrite list_lookup_alter_eq.
      destruct (grid m !! Z.to_nat y); simpl; [|done].
      by rewrite list_lookup_alter_eq.
    + destruct (decide (b = y)) as [->|Hby].
      * rewrite list_lookup_alter_eq.
        destruct (grid m !! Z.to_nat y); simpl; [|done].
        rewrite list_lookup_alter_ne; [done|].
        intros Hn. apply Heq. f_equal. lia.
      * rewrite list_lookup_alter_ne; [done|lia].
  - case_decide as Heq; [|done]. simplify_eq. by rewrite Hxy.
Qed.

Lemma getCell_setCell m x y i v a b j :
  getCell (setCell m x y i v) a b j =
  if decide ((a, b) = (x, y))
  then c ← cell_at m a b; cell_get (cell_set c i v) j
  else getCell m a b j.
Proof.
  unfold getCell. rewrite cell_at_setCell. case_decide; [|done].
  by destruct (cell_at m a b).
Qed.

Lemma getCell_None m x y i : inMap m x y = false → getCell m x y i = None.
Proof. intros Hout. unfold getCell, cell_at. by rewrite Hout. Qed.

Lemma setCell_out m x y i v : inMap m x y = false → setCell m x y i v = m.
Proof. intros Hout. unfold setCell. by rewrite Hout. Qed.

(** ** Counting over lists *)

Section counting.
Context {A : Type}.
Implicit Types (l : list A).

(** Two predicates that agree on a list select as many elements. *)
Lemma length_filter_agree (P Q : A → Prop)
    `{!∀ x, Decision (P x)} `{!∀ x, Decision (Q x)} l :
  (∀ x, x ∈ l → (P x ↔ Q x)) →
  length (filter Q l) = length (filter P l).
Proof.
  induction l as [|a l IH]; intros Hag; [done|].
  rewrite !filter_cons.
  assert (P a ↔ Q a) as Ha by (apply Hag; left).
  assert (length (filter Q l) = length (filter P l)) as IH'.
  { apply IH. intros x Hx. apply Hag. by right. }
  destruct (decide (Q a)), (decide (P a)); simpl;
        first [lia | exfalso; tauto].
Qed.

(** A predicate that gains exactly one element of a duplicate-free list
    selects one element more. *)
Lemma length_filter_gain (P Q : A → Prop)
    `{!∀ x, Decision (P x)} `{!∀ x, Decision (Q x)} l p :
  NoDup l → p ∈ l → ¬ P p →
  (∀ x, x ∈ l → (Q x ↔ P x ∨ x = p)) →
  length (filter Q l) = S (length (filter P l)).
Proof.
  induction l as [|a l IH]; intros Hnd Hp HnP Hag.
  - by apply elem_of_nil in Hp.
  - apply NoDup_cons in Hnd as [Hal Hnd]. rewrite !filter_cons.
    assert (Q a ↔ P a ∨ a = p) as Ha by (apply Hag; left).
    apply elem_of_cons in Hp as [->|Hp].
    + assert (length (filter Q l) = length (filter P l)) as Hrest.
      { apply length_filter_agree. intros x Hx.
        rewrite (Hag x) by (by right).
        split; [by left|]. intros Hx'. destruct Hx' as [?|Hx']; [done|].
        by subst x. }
      destruct (decide (Q a)), (decide (P a)); simpl;
        first [lia | exfalso; tauto].
    + assert (length (filter Q l) = S (length (filter P l))) as Hrest.
      { apply IH; [done..|]. intros x Hx. apply Hag. by right. }
      assert (a ≠ p) by (by intros ->).
      destruct (decide (Q a)), (decide (P a)); simpl;
        first [lia | exfalso; tauto].
Qed.
End counting.

(** ** The 3x3 block *)

Lemma elem_of_block dx dy :
  (dx, dy) ∈ block_dy_dx ↔ -1 <= dx <= 1 ∧ -1 <= dy <= 1.
Proof.
  unfold block_dy_dx, offsets. simpl. rewrite !elem_of_cons, elem_of_nil.
  split.
  - intros Hd. repeat destruct Hd as [Hd|Hd]; simplify_eq; lia.
  - intros [Hx Hy].
    assert (dx = -1 ∨ dx = 0 ∨ dx = 1) as Hdx by lia.
    assert (dy = -1 ∨ dy = 0 ∨ dy = 1) as Hdy by lia.
    destruct Hdx as [ -> | [ -> | -> ] ], Hdy as [ -> | [ -> | -> ] ]; tauto.
Qed.

Lemma NoDup_block : NoDup block_dy_dx.
Proof. apply (bool_decide_unpack _). by vm_compute. Qed.

Lemma elem_of_around dx dy :
  (dx, dy) ∈ around_dx_dy ↔
  -1 <= dx <= 1 ∧ -1 <= dy <= 1 ∧ ¬ (dx = 0 ∧ dy = 0).
Proof.
  unfold around_dx_dy, offsets. simpl. rewrite !elem_of_cons, elem_of_nil.
  split.
  - intros Hd. repeat destruct Hd as [Hd|Hd]; simplify_eq; lia.
  - intros (Hx & Hy & Hne).
    assert (dx = -1 ∨ dx = 0 ∨ dx = 1) as Hdx by lia.
    assert (dy = -1 ∨ dy = 0 ∨ dy = 1) as Hdy by lia.
    destruct Hdx as [ -> | [ -> | -> ] ], Hdy as [ -> | [ -> | -> ] ]; tauto.
Qed.

(** ** All cells of a board *)

Lemma elem_of_all_cells m x y :
  (x, y) ∈ all_cells m ↔ inMap m x y = true.
Proof.
  unfold all_cells. rewrite inMap_spec, list_elem_of_bind. split.
  - intros (b & Hxy & Hb). apply list_elem_of_bind in Hxy as (a & Hxy & Ha).
    apply list_elem_of_singleton in Hxy. simplify_eq.
    apply elem_of_seqZ in Ha, Hb. lia.
  - intros [Hx Hy]. exists y. split; [|apply elem_of_seqZ; lia].
    apply list_elem_of_bind. exists x. split; [by left|apply elem_of_seqZ; lia].
Qed.

Lemma NoDup_all_cells m : NoDup (all_cells m).
Proof.
  unfold all_cells. apply NoDup_bind; [| |apply NoDup_seqZ].
  - intros y1 y2 p _ _ Hp1 Hp2.
    apply list_elem_of_bind in Hp1 as (x1 & Hp1 & _).
    apply list_elem_of_bind in Hp2 as (x2 & Hp2 & _).
    apply list_elem_of_singleton in Hp1, Hp2. by simplify_eq.
  - intros y _. apply NoDup_bind; [| |apply NoDup_seqZ].
    + intros x1 x2 p _ _ Hp1 Hp2.
      apply list_elem_of_singleton in Hp1, Hp2. by simplify_eq.
    + intros x _. apply NoDup_singleton.
Qed.

Lemma length_all_cells m :
  length (all_cells m) = (Z.to_nat (w m) * Z.to_nat (h m))%nat.
Proof.
  unfold all_cells.
  assert (∀ (y : Z) (k : list Z), length (x ← k; [(x, y)]) = length k) as Hrow.
  { intros y. induction k as [|x k IHk]; [done|].
    rewrite bind_cons. simpl. by rewrite IHk. }
  assert (∀ l : list Z,
    length (y ← l; x ← seqZ 0 (w m); [(x, y)]) = (Z.to_nat (w m) * length l)%nat)
    as Hgen.
  { induction l as [|y l IH]; [simpl; lia|].
    rewrite bind_cons, length_app, IH, Hrow, length_seqZ. simpl. lia. }
  by rewrite Hgen, length_seqZ.
Qed.

(** ** Placing one bomb *)

Lemma w_bump m cx cy : w (bump m cx cy) = w m.
Proof.
  unfold bump. destruct (inMap m cx cy); [|done].
  destruct (getCell m cx cy 0); [apply w_setCell|done].
Qed.

Lemma h_bump m cx cy : h (bump m cx cy) = h m.
Proof.
  unfold bump. destruct (inMap m cx cy); [|done].
  destruct (getCell m cx cy 0); [apply h_setCell|done].
Qed.

Lemma wf_bump m cx cy : wf m → wf (bump m cx cy).
Proof.
  intros Hwf. unfold bump. destruct (inMap m cx cy); [|done].
  destruct (getCell m cx cy 0); [by apply wf_setCell|done].
Qed.

Lemma cell_at_bump m cx cy a b :
  cell_at (bump m cx cy) a b =
  if decide ((a, b) = (cx, cy)) then inc_number <$> cell_at m a b
  else cell_at m a b.
Proof.
  unfold bump, getCell. destruct (inMap m cx cy) eqn:Hin.
  - destruct (cell_at m cx cy) as [c|] eqn:Hc; simpl.
    + rewrite cell_at_setCell. case_decide; [|done]. simplify_eq.
      by rewrite Hc.
    + case_decide; [|done]. simplify_eq. by rewrite Hc.
  - case_decide as Heq; [|done]. simplify_eq.
    unfold cell_at. by rewrite Hin.
Qed.

Section bumps.
Variables x y : Z.

Lemma bumps_cons m dx dy ds :
  bumps x y m ((dx, dy) :: ds) = bumps x y (bump m (x + dx) (y + dy)) ds.
Proof. done. Qed.

Lemma w_bumps ds : ∀ m, w (bumps x y m ds) = w m.
Proof.
  induction ds as [|[dx dy] ds IH]; intros m; [done|].
  by rewrite bumps_cons, IH, w_bump.
Qed.

Lemma h_bumps ds : ∀ m, h (bumps x y m ds) = h m.
Proof.
  induction ds as [|[dx dy] ds IH]; intros m; [done|].
  by rewrite bumps_cons, IH, h_bump.
Qed.

Lemma wf_bumps ds : ∀ m, wf m → wf (bumps x y m ds).
Proof.
  induction ds as [|[dx dy] ds IH]; intros m Hwf; [done|].
  rewrite bumps_cons. apply IH. by apply wf_bump.
Qed.

Lemma cell_at_bumps ds :
  NoDup ds → ∀ m a b,
  cell_at (bumps x y m ds) a b =
  if decide ((a - x, b - y) ∈ ds) then inc_number <$> cell_at m a b
  else cell_at m a b.
Proof.
  induction ds as [|[dx dy] ds IH]; intros Hnd m a b.
  - by rewrite decide_False by apply not_elem_of_nil.
  - apply NoDup_cons in Hnd as [Hd Hnd].
    rewrite bumps_cons, IH by done. rewrite cell_at_bump.
    destruct (decide ((a, b) = (x + dx, y + dy))) as [Heq|Hne].
    + simplify_eq. replace (x + dx - x) with dx by lia.
      replace (y + dy - y) with dy by lia.
      rewrite decide_False by done.
      rewrite decide_True by left. done.
    + destruct (decide ((a - x, b - y) ∈ ds)) as [Hin|Hout].
      * rewrite decide_True by (by right). done.
      * rewrite decide_False; [done|].
        intros Hel. apply elem_of_cons in Hel as [Heq|Hel]; [|done].
        apply Hne. simplify_eq. f_equal; lia.
Qed.
End bumps.

Lemma cell_at_placeBomb m x y a b :
  cell_at (placeBomb m x y) a b = place_cell x y a b <$> cell_at m a b.
Proof.
  unfold placeBomb.
  rewrite cell_at_bumps by apply NoDup_block. rewrite cell_at_setCell.
  unfold place_cell.
  destruct (cell_at m a b) as [[n bo f cv]|]; simpl.
  - destruct (decide ((a - x, b - y) ∈ block_dy_dx)) as [Hin|Hout].
    + rewrite elem_of_block in Hin. rewrite (decide_True (P := near x y a b)) by done.
      by case_decide.
    + rewrite elem_of_block in Hout.
      rewrite (decide_False (P := near x y a b)) by done.
      case_decide; simpl; f_equal; f_equal; lia.
  - by repeat case_decide.
Qed.

Lemma w_placeBomb m x y : w (placeBomb m x y) = w m.
Proof.
  unfold placeBomb.
  by rewrite w_bumps, w_setCell.
Qed.

Lemma h_placeBomb m x y : h (placeBomb m x y) = h m.
Proof.
  unfold placeBomb.
  by rewrite h_bumps, h_setCell.
Qed.

Lemma wf_placeBomb m x y : wf m → wf (placeBomb m x y).
Proof.
  intros Hwf. unfold placeBomb.
  by apply wf_bumps, wf_setCell.
Qed.

Lemma all_cells_eq m m' : w m' = w m → h m' = h m → all_cells m' = all_cells m.
Proof. intros Hw Hh. unfold all_cells. by rewrite Hw, Hh. Qed.

Lemma inMap_eq m m' x y : w m' = w m → h m' = h m → inMap m' x y = inMap m x y.
Proof. intros Hw Hh. unfold inMap. by rewrite Hw, Hh. Qed.

(** ** Mines and counts *)

Lemma mined_inMap m x y : mined m x y → inMap m x y = true.
Proof.
  unfold mined, getCell. destruct (cell_at m x y) eqn:Hc; [|done].
  intros _. by eapply cell_at_inMap.
Qed.

Lemma mined_placeBomb m x y a b :
  wf m → inMap m x y = true →
  mined (placeBomb m x y) a b ↔ mined m a b ∨ (a, b) = (x, y).
Proof.
  intros Hwf Hin. unfold mined, getCell. rewrite cell_at_placeBomb.
  destruct (decide ((a, b) = (x, y))) as [Heq|Hne].
  - simplify_eq. destruct (cell_at_is_Some m x y Hwf Hin) as [c ->].
    simpl. case_decide; [|done]. split; [by right|done].
  - destruct (cell_at m a b) as [c|]; simpl.
    + case_decide; [done|]. split; [by left|]. by intros [?|?].
    + split; [by left|]. by intros [?|?].
Qed.

Lemma block_count_placeBomb m x y a b :
  wf m → inMap m x y = true → ¬ mined m x y →
  block_count (placeBomb m x y) a b =
  block_count m a b + (if decide (near x y a b) then 1 else 0).
Proof.
  intros Hwf Hin Hfree. unfold block_count. case_decide as Hnear.
  - rewrite (length_filter_gain (λ d, mined m (a + d.1) (b + d.2))
               _ block_dy_dx (x - a, y - b)).
    + lia.
    + apply NoDup_block.
    + apply elem_of_block. unfold near in Hnear. lia.
    + simpl. by replace (a + (x - a)) with x by lia;
        replace (b + (y - b)) with y by lia.
    + intros [dx dy] _. simpl. rewrite mined_placeBomb by done.
      split; (intros [?|Heq]; [by left|right]); simplify_eq; f_equal; lia.
  - rewrite (length_filter_agree (λ d, mined m (a + d.1) (b + d.2))
               _ block_dy_dx); [lia|].
    intros [dx dy] Hd. simpl. rewrite mined_placeBomb by done.
    split; [by left|]. intros [?|Heq]; [done|]. simplify_eq.
    apply elem_of_block in Hd. exfalso. apply Hnear. unfold near. lia.
Qed.

Lemma consistent_placeBomb m x y :
  wf m → inMap m x y = true → ¬ mined m x y →
  consistent m → consistent (placeBomb m x y).
Proof.
  intros Hwf Hin Hfree Hcons a b c Hc.
  rewrite cell_at_placeBomb in Hc.
  destruct (cell_at m a b) as [c0|] eqn:Hc0; simplify_eq/=.
  rewrite block_count_placeBomb by done. by rewrite (Hcons a b c0).
Qed.

Lemma count_bombs_placeBomb m x y :
  wf m → inMap m x y = true → ¬ mined m x y →
  count_bombs (placeBomb m x y) = S (count_bombs m).
Proof.
  intros Hwf Hin Hfree. unfold count_bombs.
  rewrite (all_cells_eq m) by (apply w_placeBomb || apply h_placeBomb).
  apply (length_filter_gain _ _ _ (x, y)).
  - apply NoDup_all_cells.
  - by apply elem_of_all_cells.
  - done.
  - intros [a b] _. simpl. by apply mined_placeBomb.
Qed.

Lemma same_flags_covered_placeBomb m x y :
  same_flags_covered m (placeBomb m x y).
Proof.
  intros a b. unfold getCell. rewrite cell_at_placeBomb.
  by destruct (cell_at m a b).
Qed.

Lemma same_flags_covered_refl m : same_flags_covered m m.
Proof. by intros a b. Qed.

Lemma same_flags_covered_trans m1 m2 m3 :
  same_flags_covered m1 m2 → same_flags_covered m2 m3 →
  same_flags_covered m1 m3.
Proof.
  intros H12 H23 a b. destruct (H12 a b) as [<- <-]. apply H23.
Qed.

(** ** The forbidden zone *)

Lemma elem_of_forbidden_cells m sx sy a b :
  (a, b) ∈ forbidden_cells m sx sy ↔ inMap m a b = true ∧ near sx sy a b.
Proof.
  unfold forbidden_cells.
  assert (∀ ds (acc : gset (Z * Z)),
    (a, b) ∈ foldl (λ (acc : gset (Z * Z)) '(dx, dy),
                      if inMap m (sx + dx) (sy + dy)
                      then acc ∪ {[ (sx + dx, sy + dy) ]} else acc) acc ds ↔
    (a, b) ∈ acc ∨
    (inMap m a b = true ∧ (a - sx, b - sy) ∈ ds)) as Hgen.
  { induction ds as [|[dx dy] ds IH]; intros acc.
    - simpl. rewrite elem_of_nil. tauto.
    - simpl. rewrite IH, elem_of_cons.
      destruct (inMap m (sx + dx) (sy + dy)) eqn:Hin.
      + rewrite elem_of_union, elem_of_singleton. split.
        * intros [[?|Heq]|[? ?]]; [by left| |by right; split; [|right]].
          simplify_eq. right. split; [done|]. left. f_equal; lia.
        * intros [?|[? [Heq|?]]]; [by left; left| |by right].
          left. right. simplify_eq. f_equal; lia.
      + split.
        * intros [?|[? ?]]; [by left|by right; split; [|right]].
        * intros [?|[Hab [Heq|?]]]; [by left| |by right].
          simplify_eq. replace (sx + (a - sx)) with a in Hin by lia.
          replace (sy + (b - sy)) with b in Hin by lia. congruence. }
  rewrite Hgen, elem_of_block. unfold near.
  split; [intros [Hemp|?]; [by apply elem_of_empty in Hemp|done]|by right].
Qed.

(** ** The placement loop *)

Lemma unmined_new width height : unmined (Map_new width height).
Proof.
  intros a b c. unfold cell_at. destruct (inMap _ a b); [|done]. simpl.
  intros Hc. apply bind_Some in Hc as (row & Hrow & Hc).
  apply lookup_replicate in Hrow as [-> _].
  by apply lookup_replicate in Hc as [-> _].
Qed.

Lemma unmined_not_mined m a b : unmined m → ¬ mined m a b.
Proof.
  intros Hun. unfold mined, getCell.
  destruct (cell_at m a b) as [c|] eqn:Hc; [|done]. simpl.
  destruct (Hun a b c Hc) as [_ Hb]. rewrite Hb. by intros [=].
Qed.

Lemma count_bombs_unmined m : unmined m → count_bombs m = 0%nat.
Proof.
  intros Hun. unfold count_bombs.
  rewrite (length_filter_agree (λ _, False) _ (all_cells m)).
  - induction (all_cells m) as [|p l IH]; [done|].
    rewrite filter_cons. by destruct (decide False).
  - intros [a b] _. simpl. split; [done|]. by apply unmined_not_mined.
Qed.

Lemma block_count_unmined m a b : unmined m → block_count m a b = 0.
Proof.
  intros Hun. unfold block_count.
  rewrite (length_filter_agree (λ _, False) _ block_dy_dx).
  - by vm_compute.
  - intros [dx dy] _. simpl. split; [done|]. by apply unmined_not_mined.
Qed.

Lemma consistent_unmined m : unmined m → consistent m.
Proof.
  intros Hun a b c Hc. rewrite block_count_unmined by done.
  by destruct (Hun a b c Hc).
Qed.

Lemma draws_in_eq m m' draws :
  w m' = w m → h m' = h m → draws_in m draws → draws_in m' draws.
Proof.
  intros Hw Hh Hin. unfold draws_in. eapply Forall_impl; [exact Hin|].
  intros p. by rewrite (inMap_eq m m').
Qed.

Lemma placed_refl forbidden m : wf m → placed forbidden 0 m m.
Proof.
  intros Hwf. split; [done|done|done|lia| | |done|].
  - intros a b ?. by left.
  - by intros a b ?.
  - apply same_flags_covered_refl.
Qed.

Lemma generateBombs_loop_placed forbidden bombCount draws :
  ∀ count m m' rest,
  wf m → draws_in m draws →
  generateBombs_loop forbidden bombCount draws count m = Some (m', rest) →
  placed forbidden (Z.max 0 (bombCount - count)) m m' ∧
  ∃ used, draws = used ++ rest.
Proof.
  induction draws as [|[x y] draws IH]; intros count m m' rest Hwf Hin Hrun;
    simpl in Hrun; destruct (count <? bombCount) eqn:Hlt;
    try apply Z.ltb_lt in Hlt; try apply Z.ltb_ge in Hlt; simplify_eq.
  - split; [|by exists []].
    replace (Z.max 0 (bombCount - count)) with 0 by lia. by apply placed_refl.
  - apply Forall_cons in Hin as [Hxy Hin]. simpl in Hxy.
    destruct (bool_decide ((x, y) ∈ forbidden)) eqn:Hforb.
    { destruct (IH _ _ _ _ Hwf Hin Hrun) as [Hp [used ->]].
      split; [done|]. by exists ((x, y) :: used). }
    apply bool_decide_eq_false in Hforb.
    destruct (bool_decide (getCell m x y 1 = Some 1)) eqn:Hbomb.
    { destruct (IH _ _ _ _ Hwf Hin Hrun) as [Hp [used ->]].
      split; [done|]. by exists ((x, y) :: used). }
    apply bool_decide_eq_false in Hbomb.
    apply IH in Hrun as [Hp [used ->]];
      [|by apply wf_placeBomb
       |by eapply draws_in_eq; [apply w_placeBomb|apply h_placeBomb|]].
    split; [|by exists ((x, y) :: used)].
    destruct Hp as [Hwf' Hw' Hh' Hcount Hnew Hold Hcons Hflags].
    rewrite w_placeBomb in Hw'. rewrite h_placeBomb in Hh'.
    rewrite count_bombs_placeBomb in Hcount by done.
    split; try done.
    + lia.
    + intros a b Hab. destruct (Hnew a b Hab) as [Hm|?]; [|by right].
      apply mined_placeBomb in Hm; [|done..].
      destruct Hm as [?|Heq]; [by left|]. right. by simplify_eq.
    + intros a b Hab. apply Hold. apply mined_placeBomb; [done..|by left].
    + intros Hc. by apply Hcons, consistent_placeBomb.
    + eapply same_flags_covered_trans; [|done].
      apply same_flags_covered_placeBomb.
  - split; [|by exists []].
    replace (Z.max 0 (bombCount - count)) with 0 by lia. by apply placed_refl.
Qed.

Lemma generateBombs_placed m bombCount sx sy draws m' rest :
  wf m → draws_in m draws →
  generateBombs m bombCount sx sy draws = Some (m', rest) →
  placed (forbidden_cells m sx sy) (Z.max 0 bombCount) m m'.
Proof.
  intros Hwf Hin Hrun. unfold generateBombs in Hrun.
  apply generateBombs_loop_placed in Hrun as [Hp _]; [|done..].
  by replace (bombCount - 0) with bombCount in Hp by lia.
Qed.

(** Draws on which the loop runs to completion: distinct free cells, as
    many as there are bombs left to place. *)
Lemma generateBombs_loop_completes forbidden bombCount draws :
  ∀ count m,
  wf m → NoDup draws →
  (∀ a b, (a, b) ∈ draws →
     inMap m a b = true ∧ ((a, b) ∉ forbidden) ∧ ¬ mined m a b) →
  count + Z.of_nat (length draws) = bombCount →
  ∃ m', generateBombs_loop forbidden bombCount draws count m = Some (m', []).
Proof.
  induction draws as [|[x y] draws IH]; intros count m Hwf Hnd Hfree Hlen;
    simpl in *.
  { assert ((count <? bombCount) = false) as -> by (apply Z.ltb_ge; lia).
    by exists m. }
  assert ((count <? bombCount) = true) as -> by (apply Z.ltb_lt; lia).
  apply NoDup_cons in Hnd as [Hxy Hnd].
  destruct (Hfree x y) as (Hin & Hforb & Hmined); [left|].
  rewrite bool_decide_eq_false_2 by done.
  rewrite bool_decide_eq_false_2 by done.
  apply IH; [by apply wf_placeBomb|done| |lia].
  intros a b Hab. destruct (Hfree a b) as (Hin' & Hforb' & Hmined'); [by right|].
  split_and!; [|done|].
  - by rewrite (inMap_eq m) by (apply w_placeBomb || apply h_placeBomb).
  - rewrite mined_placeBomb by done. intros [?|Heq]; [done|].
    by simplify_eq.
Qed.

(** With enough free cells outside the forbidden zone there are draws on
    which [generateBombs] completes. *)
Lemma generateBombs_can_complete m bombCount startX startY :
  wf m → unmined m →
  0 <= bombCount <= Z.of_nat (length (free_cells m startX startY)) →
  ∃ draws m',
    draws_in m draws ∧
    generateBombs m bombCount startX startY draws = Some (m', []).
Proof.
  intros Hwf Hun Hn.
  set (draws := take (Z.to_nat bombCount) (free_cells m startX startY)).
  assert (∀ a b, (a, b) ∈ draws →
            inMap m a b = true ∧ (a, b) ∉ forbidden_cells m startX startY)
    as Hdraws.
  { intros a b Hab. apply subseteq_take in Hab.
    apply list_elem_of_filter in Hab as [? Hab].
    by apply elem_of_all_cells in Hab. }
  destruct (generateBombs_loop_completes (forbidden_cells m startX startY)
              bombCount draws 0 m) as [m' Hrun]; [done| | | |].
  - eapply sublist_NoDup; [|apply sublist_take].
    apply NoDup_filter, NoDup_all_cells.
  - intros a b Hab. destruct (Hdraws a b Hab). split_and!; [done..|].
    by apply unmined_not_mined.
  - unfold draws. rewrite length_take_le by lia. lia.
  - exists draws, m'. split; [|done].
    apply Forall_forall. intros [a b] Hab. by apply Hdraws.
Qed.

(** The 3x3 block is the cell and its eight neighbours. *)
Lemma block_count_around m x y :
  block_count m x y =
  around_count m x y + (if decide (mined m x y) then 1 else 0).
Proof.
  unfold block_count, around_count.
  assert (block_dy_dx ≡ₚ (0, 0) :: around_dx_dy) as ->.
  { apply NoDup_Permutation.
    - apply NoDup_block.
    - apply (bool_decide_unpack _). by vm_compute.
    - intros [dx dy]. rewrite elem_of_cons, elem_of_block, elem_of_around.
      split.
      + intros [Hx Hy]. destruct (decide (dx = 0 ∧ dy = 0)) as [[-> ->]|Hne].
        * by left.
        * by right.
      + intros [Heq|(? & ? & _)]; [simplify_eq; lia|done]. }
  rewrite filter_cons. simpl.
  replace (x + 0) with x by lia. replace (y + 0) with y by lia.
  destruct (decide (mined m x y)); simpl; lia.
Qed.

(** ** The visited array *)

Lemma vwf_new m : vwf m (visited_new m).
Proof.
  split; unfold visited_new.
  - by rewrite length_replicate.
  - apply Forall_replicate. by rewrite length_replicate.
Qed.

Lemma vget_new m a b : vget (visited_new m) a b = false.
Proof.
  unfold vget.
  destruct (visited_new m !! Z.to_nat a) as [col|] eqn:Hcol; simpl; [|done].
  unfold visited_new in Hcol. apply lookup_replicate in Hcol as [-> _].
  destruct (replicate (Z.to_nat (h m)) false !! Z.to_nat b) as [v|] eqn:Hv;
    simpl; [|done].
  by apply lookup_replicate in Hv as [-> _].
Qed.

Lemma vwf_vset m v x y : vwf m v → vwf m (vset v x y).
Proof.
  intros [Hlen Hcols]. split; unfold vset.
  - by rewrite length_alter.
  - apply Forall_lookup. intros k col Hk.
    destruct (decide (k = Z.to_nat x)) as [->|Hne].
    + rewrite list_lookup_alter_eq in Hk.
      destruct (v !! Z.to_nat x) as [col0|] eqn:Hcol; simplify_eq/=.
      rewrite length_insert. by eapply (Forall_lookup_1 _ _ _ _ Hcols).
    + rewrite list_lookup_alter_ne in Hk by done.
      by eapply (Forall_lookup_1 _ _ _ _ Hcols).
Qed.

Lemma vwf_eq m m' v : w m' = w m → h m' = h m → vwf m v → vwf m' v.
Proof. intros Hw Hh. unfold vwf. by rewrite Hw, Hh. Qed.

Lemma vget_vset m v x y a b :
  vwf m v → inMap m x y = true → inMap m a b = true →
  vget (vset v x y) a b = if decide ((a, b) = (x, y)) then true else vget v a b.
Proof.
  intros [Hlen Hcols] Hxy Hab. apply inMap_spec in Hxy, Hab.
  unfold vget, vset. case_decide as Heq.
  - simplify_eq. rewrite list_lookup_alter_eq.
    destruct (lookup_lt_is_Some_2 v (Z.to_nat x)) as [col Hcol]; [lia|].
    rewrite Hcol. simpl. rewrite list_lookup_insert_eq; [done|].
    rewrite (Forall_lookup_1 _ _ _ _ Hcols Hcol). lia.
  - destruct (decide (a = x)) as [->|Hax].
    + rewrite list_lookup_alter_eq.
      destruct (v !! Z.to_nat x) as [col|]; simpl; [|done].
      rewrite list_lookup_insert_ne; [done|].
      intros Hn. apply Heq. f_equal. lia.
    + rewrite list_lookup_alter_ne; [done|lia].
Qed.

Lemma length_filter_le {A} (P Q : A → Prop)
    `{!∀ x, Decision (P x)} `{!∀ x, Decision (Q x)} (l : list A) :
  (∀ x, x ∈ l → Q x → P x) →
  (length (filter Q l) ≤ length (filter P l))%nat.
Proof.
  induction l as [|a l IH]; intros Himp; [done|].
  rewrite !filter_cons.
  assert (Q a → P a) as Ha by (apply Himp; left).
  assert (length (filter Q l) ≤ length (filter P l))%nat as IH'.
  { apply IH. intros x Hx. apply Himp. by right. }
  destruct (decide (Q a)), (decide (P a)); simpl;
    first [lia | exfalso; tauto].
Qed.

Lemma unvisited_mono m m' v v' :
  w m' = w m → h m' = h m →
  (∀ a b, inMap m a b = true → vget v a b = true → vget v' a b = true) →
  (unvisited m' v' ≤ unvisited m v)%nat.
Proof.
  intros Hw Hh Hmono. unfold unvisited. rewrite (all_cells_eq m m') by done.
  apply length_filter_le. intros [a b] Hab. simpl.
  apply elem_of_all_cells in Hab. intros Hv'.
  destruct (vget v a b) eqn:Hv; [|done].
  by rewrite (Hmono a b Hab Hv) in Hv'.
Qed.

Lemma unvisited_mark m v x y :
  vwf m v → inMap m x y = true → vget v x y = false →
  unvisited m v = S (unvisited m (vset v x y)).
Proof.
  intros Hvwf Hin Hv. unfold unvisited.
  apply (length_filter_gain _ _ _ (x, y)).
  - apply NoDup_all_cells.
  - by apply elem_of_all_cells.
  - simpl. rewrite (vget_vset m) by done. by rewrite decide_True.
  - intros [a b] Hab. apply elem_of_all_cells in Hab. simpl.
    rewrite (vget_vset m) by done. case_decide as Heq.
    + simplify_eq. split; [by right|done].
    + split; [by left|]. by intros [?|?].
Qed.

Lemma unvisited_le m v : (unvisited m v ≤ Z.to_nat (w m) * Z.to_nat (h m))%nat.
Proof. unfold unvisited. rewrite <- length_all_cells. apply length_filter. Qed.

(** ** Runs of _flood *)

Lemma flooded_refl st :
  wf (fl_map st) → vwf (fl_map st) (fl_visited st) → flooded st st [].
Proof.
  intros Hwf Hvwf. split; try done.
  - by rewrite app_nil_r.
  - constructor.
  - intros a b Hab. by apply elem_of_nil in Hab.
  - intros a b _. split; [by left|]. intros [?|Hab]; [done|].
    by apply elem_of_nil in Hab.
  - intros a b. rewrite decide_False by apply not_elem_of_nil.
    by destruct (cell_at (fl_map st) a b).
Qed.

Lemma flooded_trans s1 s2 s3 n1 n2 :
  flooded s1 s2 n1 → flooded s2 s3 n2 → flooded s1 s3 (n1 ++ n2).
Proof.
  intros [Hwf2 Hvwf2 Hw2 Hh2 Hlog2 Hnd2 Hfr2 Hmk2 Hc2]
         [Hwf3 Hvwf3 Hw3 Hh3 Hlog3 Hnd3 Hfr3 Hmk3 Hc3].
  assert (∀ a b, inMap (fl_map s2) a b = inMap (fl_map s1) a b) as Hin
    by (intros; by apply inMap_eq).
  split; try done.
  - congruence.
  - congruence.
  - by rewrite Hlog3, Hlog2, app_assoc.
  - apply NoDup_app. split_and!; [done| |done].
    intros [a b] H1 H2. destruct (Hfr2 a b H1) as [Hab _].
    destruct (Hfr3 a b H2) as [_ Hv]. rewrite <- Hin in Hab.
    rewrite Hin in Hab.
    assert (vget (fl_visited s2) a b = true) by (apply Hmk2; [done|by right]).
    congruence.
  - intros a b Hab. apply elem_of_app in Hab as [Hab|Hab]; [by apply Hfr2|].
    destruct (Hfr3 a b Hab) as [Hi Hv]. rewrite Hin in Hi. split; [done|].
    destruct (vget (fl_visited s1) a b) eqn:Hv1; [|done].
    assert (vget (fl_visited s2) a b = true) by (apply Hmk2; [done|by left]).
    congruence.
  - intros a b Hab. rewrite Hmk3 by (by rewrite Hin). rewrite Hmk2 by done.
    rewrite elem_of_app. tauto.
  - intros a b. rewrite Hc3, Hc2.
    destruct (cell_at (fl_map s1) a b) as [c|]; simpl; [|done].
    destruct (decide ((a, b) ∈ n1)), (decide ((a, b) ∈ n2));
      [rewrite decide_True by (apply elem_of_app; by left)
      |rewrite decide_True by (apply elem_of_app; by left)
      |rewrite decide_True by (apply elem_of_app; by right)
      |rewrite decide_False by (rewrite elem_of_app; tauto)]; done.
Qed.

(** The first two statements of [_flood]: uncover the cell and mark it. *)
Lemma flooded_mark st x y :
  wf (fl_map st) → vwf (fl_map st) (fl_visited st) →
  inMap (fl_map st) x y = true → vget (fl_visited st) x y = false →
  flooded st
    (mkFlood (setCell (fl_map st) x y 3 0) (vset (fl_visited st) x y)
             (fl_calls st ++ [(x, y)]))
    [(x, y)].
Proof.
  intros Hwf Hvwf Hin Hv. split; simpl.
  - by apply wf_setCell.
  - eapply vwf_eq; [apply w_setCell|apply h_setCell|]. by apply vwf_vset.
  - apply w_setCell.
  - apply h_setCell.
  - done.
  - apply NoDup_singleton.
  - intros a b Hab. apply list_elem_of_singleton in Hab. by simplify_eq.
  - intros a b Hab. rewrite (vget_vset (fl_map st)) by done.
    rewrite list_elem_of_singleton. case_decide; [|tauto].
    split; [by right|done].
  - intros a b. rewrite cell_at_setCell.
    destruct (decide ((a, b) = (x, y))) as [Heq|Hne].
    + rewrite decide_True by (by apply list_elem_of_singleton).
      by destruct (cell_at (fl_map st) a b) as [[]|].
    + rewrite decide_False by (by rewrite list_elem_of_singleton).
      by destruct (cell_at (fl_map st) a b).
Qed.

Lemma flooded_unvisited st st' new :
  flooded st st' new →
  (unvisited (fl_map st') (fl_visited st') ≤
   unvisited (fl_map st) (fl_visited st))%nat.
Proof.
  intros Hfl. apply unvisited_mono; [apply Hfl..|].
  intros a b Hab Hv. apply (flooded_marks _ _ _ Hfl); [done|by left].
Qed.

Lemma flooded_getCell st st' new a b i :
  flooded st st' new → i ≠ 3 →
  getCell (fl_map st') a b i = getCell (fl_map st) a b i.
Proof.
  intros Hfl Hi. unfold getCell. rewrite (flooded_cells _ _ _ Hfl).
  destruct (cell_at (fl_map st) a b) as [c|]; simpl; [|done].
  case_decide; [|done].
  destruct i as [|[[]|[]|]|]; done.
Qed.

Lemma flooded_marks_kept st st' new :
  flooded st st' new → marks_kept (fl_map st) (fl_visited st) (fl_visited st').
Proof.
  intros Hfl a b Hab Hv. apply (flooded_marks _ _ _ Hfl); [done|by left].
Qed.

Lemma closed_kept m v v' cells :
  marks_kept m v v' → closed m v cells → closed m v' cells.
Proof. intros Hk Hcl a b d Hab Hz Hd Hin. apply Hk; [done|]. by eapply Hcl. Qed.

Lemma closed_app m v c1 c2 :
  closed m v c1 → closed m v c2 → closed m v (c1 ++ c2).
Proof.
  intros H1 H2 a b d Hab. apply elem_of_app in Hab as [Hab|Hab];
    [by apply H1|by apply H2].
Qed.

Lemma closed_eq m m' v cells :
  w m' = w m → h m' = h m → (∀ a b, getCell m' a b 0 = getCell m a b 0) →
  closed m v cells → closed m' v cells.
Proof.
  intros Hw Hh Hnum Hcl a b d Hab Hz Hd Hin.
  rewrite (inMap_eq m m') in Hin by done. rewrite Hnum in Hz. by eapply Hcl.
Qed.

Section visit_neighbours.
(** The recursive call, assumed to run to completion on every unvisited
    cell of the board as long as at most [f] cells are unvisited. *)
Variable rec : Z → Z → Flood → option Flood.
Variable f : nat.
Hypothesis rec_runs : ∀ a b s,
  wf (fl_map s) → vwf (fl_map s) (fl_visited s) →
  inMap (fl_map s) a b = true → vget (fl_visited s) a b = false →
  (unvisited (fl_map s) (fl_visited s) ≤ f)%nat →
  ∃ s' rest, rec a b s = Some s' ∧ flood_run a b s s' rest.

Variables (x y : Z) (st0 : Flood).
Hypothesis zero_here : getCell (fl_map st0) x y 0 = Some 0.

Lemma visit_neighbours_run ds :
  ∀ s new,
  (∀ d, d ∈ ds → d ∈ around_dx_dy) →
  flooded st0 s ((x, y) :: new) →
  closed (fl_map st0) (fl_visited s) new →
  justified (fl_map st0) x y ((x, y) :: new) →
  (unvisited (fl_map s) (fl_visited s) ≤ f)%nat →
  ∃ s' new',
    foldl (visit_neighbour rec x y) (Some s) ds = Some s' ∧
    flooded st0 s' ((x, y) :: new') ∧
    closed (fl_map st0) (fl_visited s') new' ∧
    justified (fl_map st0) x y ((x, y) :: new') ∧
    marks_kept (fl_map st0) (fl_visited s) (fl_visited s') ∧
    (∀ d, d ∈ ds → inMap (fl_map st0) (x + d.1) (y + d.2) = true →
          vget (fl_visited s') (x + d.1) (y + d.2) = true).
Proof.
  induction ds as [|d ds IH]; intros s new Hds Hfl Hcl Hju Hfuel.
  { exists s, new. split_and!; try done.
    - by intros a b _ ?.
    - intros d Hd. by apply elem_of_nil in Hd. }
  assert (∀ a b, inMap (fl_map s) a b = inMap (fl_map st0) a b) as Hin
    by (intros; apply inMap_eq; apply Hfl).
  assert (∀ d', d' ∈ ds → d' ∈ around_dx_dy) as Hds'
    by (intros d' Hd'; apply Hds; by right).
  simpl. rewrite Hin.
  destruct (inMap (fl_map st0) (x + d.1) (y + d.2)) eqn:Hd; simpl.
  2: { destruct (IH s new Hds' Hfl Hcl Hju Hfuel)
         as (s' & new' & Hrun & Hfl' & Hcl' & Hju' & Hk' & Hcov').
       exists s', new'. split_and!; try done.
       intros d' Hd' Hin'. apply elem_of_cons in Hd' as [->|Hd']; [|by apply Hcov'].
       congruence. }
  destruct (vget (fl_visited s) (x + d.1) (y + d.2)) eqn:Hv; simpl.
  { destruct (IH s new Hds' Hfl Hcl Hju Hfuel)
      as (s' & new' & Hrun & Hfl' & Hcl' & Hju' & Hk' & Hcov').
    exists s', new'. split_and!; try done.
    intros d' Hd' Hin'. apply elem_of_cons in Hd' as [->|Hd']; [|by apply Hcov'].
    by apply Hk'. }
  destruct (rec_runs (x + d.1) (y + d.2) s) as (s2 & rest2 & Hrec & Hfl2 & Hcl2 & Hju2);
    [apply Hfl|apply Hfl|by rewrite Hin|done|done|].
  rewrite Hrec.
  assert (flooded st0 s2 ((x, y) :: new ++ (x + d.1, y + d.2) :: rest2)) as Hfl02
    by apply (flooded_trans _ _ _ _ _ Hfl Hfl2).
  assert (marks_kept (fl_map st0) (fl_visited s) (fl_visited s2)) as Hk2.
  { intros a b Hab. apply (flooded_marks_kept _ _ _ Hfl2). by rewrite Hin. }
  assert (∀ a b, getCell (fl_map s) a b 0 = getCell (fl_map st0) a b 0) as Hnum
    by (intros; by eapply flooded_getCell).
  destruct (IH s2 (new ++ (x + d.1, y + d.2) :: rest2))
    as (s' & new' & Hrun & Hfl' & Hcl' & Hju' & Hk' & Hcov'); [done|done| | | |].
  - apply closed_app; [by eapply closed_kept|].
    apply (closed_eq (fl_map s)); [symmetry; apply Hfl|symmetry; apply Hfl| |done].
    intros a b. by rewrite Hnum.
  - intros a b Hab. rewrite app_comm_cons in Hab.
    apply elem_of_app in Hab as [Hab|Hab]; [by apply Hju|].
    destruct (Hju2 a b Hab) as [Heq|(p & q & Hz & Hnear)].
    + right. exists x, y. split; [done|]. simplify_eq.
      assert (d ∈ around_dx_dy) as Hdar by (apply Hds; left).
      destruct d as [dx dy]. apply elem_of_around in Hdar. simpl.
      unfold near. lia.
    + right. exists p, q. by rewrite <- Hnum.
  - pose proof (flooded_unvisited _ _ _ Hfl2). lia.
  - exists s', new'. split_and!; try done.
    + intros a b Hab Hv'. apply Hk'; [done|]. by apply Hk2.
    + intros d' Hd' Hin'. apply elem_of_cons in Hd' as [->|Hd']; [|by apply Hcov'].
      apply Hk'; [done|].
      apply (flooded_marks _ _ _ Hfl2); [by rewrite Hin|]. right. left.
Qed.
End visit_neighbours.

(** A call of [_flood] on an unvisited cell of the board runs to completion
    when the fuel covers the unvisited cells. *)
Lemma _flood_runs fuel :
  ∀ x y st,
  wf (fl_map st) → vwf (fl_map st) (fl_visited st) →
  inMap (fl_map st) x y = true → vget (fl_visited st) x y = false →
  (unvisited (fl_map st) (fl_visited st) ≤ fuel)%nat →
  ∃ st' rest, _flood fuel x y st = Some st' ∧ flood_run x y st st' rest.
Proof.
  induction fuel as [|fuel IH]; intros x y st Hwf Hvwf Hin Hv Hfuel.
  { rewrite (unvisited_mark _ _ x y) in Hfuel by done. lia. }
  pose proof (flooded_mark st x y Hwf Hvwf Hin Hv) as Hmark.
  simpl. set (st1 := mkFlood _ _ _) in *.
  assert (getCell (fl_map st1) x y 0 = getCell (fl_map st) x y 0) as Hnum
    by (by eapply flooded_getCell).
  change (setCell (fl_map st) x y 3 0) with (fl_map st1). rewrite Hnum.
  destruct (bool_decide (getCell (fl_map st) x y 0 ≠ Some 0)) eqn:Hz.
  - apply bool_decide_eq_true in Hz. exists st1, []. split; [done|].
    unfold flood_run. split_and!; [done| |].
    + intros a b d Hab Hzero. apply list_elem_of_singleton in Hab.
      by simplify_eq.
    + intros a b Hab. left. by apply list_elem_of_singleton in Hab.
  - apply bool_decide_eq_false in Hz.
    assert (getCell (fl_map st) x y 0 = Some 0) as Hzero
      by (by destruct (decide (getCell (fl_map st) x y 0 = Some 0))).
    destruct (visit_neighbours_run (_flood fuel) fuel IH x y st Hzero
                around_dx_dy st1 []) as
      (s' & new' & Hrun & Hfl' & Hcl' & Hju' & Hk' & Hcov'); [done|done| | | |].
    + intros a b d Hab. by apply elem_of_nil in Hab.
    + intros a b Hab. left. by apply list_elem_of_singleton in Hab.
    + rewrite (unvisited_mark _ _ x y) in Hfuel by done.
      subst st1. simpl.
      assert (unvisited (setCell (fl_map st) x y 3 0) (vset (fl_visited st) x y)
              = unvisited (fl_map st) (vset (fl_visited st) x y)) as ->; [|lia].
      unfold unvisited. f_equal. f_equal.
      apply all_cells_eq; [apply w_setCell|apply h_setCell].
    + exists s', new'. split; [done|]. unfold flood_run.
      split_and!; [done| |done].
      intros a b d Hab Hz' Hd Hind.
      apply elem_of_cons in Hab as [Heq|Hab]; [|by eapply Hcl'].
      simplify_eq. by apply Hcov'.
Qed.

Lemma _flood_S fuel x y st :
  _flood (S fuel) x y st =
  let m1 := setCell (fl_map st) x y 3 0 in
  let st1 := mkFlood m1 (vset (fl_visited st) x y) (fl_calls st ++ [(x, y)]) in
  if bool_decide (getCell m1 x y 0 ≠ Some 0) then Some st1
  else foldl (visit_neighbour (_flood fuel) x y) (Some st1) around_dx_dy.
Proof. done. Qed.

Lemma visit_neighbours_None rec x y ds :
  foldl (visit_neighbour rec x y) None ds = None.
Proof. by induction ds. Qed.

Lemma visit_neighbours_mono (rec rec' : Z → Z → Flood → option Flood) x y :
  (∀ a b s s', rec a b s = Some s' → rec' a b s = Some s') →
  ∀ ds acc r,
  foldl (visit_neighbour rec x y) acc ds = Some r →
  foldl (visit_neighbour rec' x y) acc ds = Some r.
Proof.
  intros Hrec. induction ds as [|d ds IH]; intros acc r Hrun; [done|].
  simpl in *. destruct acc as [s|]; simpl in *.
  - destruct (inMap _ _ _ && negb _); [|by apply IH].
    destruct (rec (x + d.1) (y + d.2) s) as [s2|] eqn:Hs2.
    + rewrite (Hrec _ _ _ _ Hs2). by apply IH.
    + by rewrite visit_neighbours_None in Hrun.
  - by rewrite visit_neighbours_None in Hrun.
Qed.

(** More fuel does not change the result of a run. *)
Lemma _flood_fuel_mono fuel :
  ∀ fuel' x y st st', (fuel ≤ fuel')%nat →
  _flood fuel x y st = Some st' → _flood fuel' x y st = Some st'.
Proof.
  induction fuel as [|fuel IH]; intros fuel' x y st st' Hle Hrun; [done|].
  destruct fuel' as [|fuel']; [lia|]. rewrite _flood_S in *. cbv zeta in *.
  destruct (bool_decide _); [done|].
  eapply visit_neighbours_mono; [|exact Hrun].
  intros a b s s'. apply IH. lia.
Qed.

Lemma length_le_all_cells m (l : list (Z * Z)) :
  NoDup l → (∀ a b, (a, b) ∈ l → inMap m a b = true) →
  (length l ≤ Z.to_nat (w m) * Z.to_nat (h m))%nat.
Proof.
  intros Hnd Hin. rewrite <- length_all_cells.
  apply submseteq_length, NoDup_submseteq; [done|].
  intros [a b] Hab. apply elem_of_all_cells. by apply Hin.
Qed.

(** ** Runs of floodFill *)

Lemma floodFill_out fuel m x y :
  inMap m x y = false → floodFill fuel m x y = Some (m, []).
Proof.
  intros Hout. unfold floodFill.
  rewrite getCell_None by done. by rewrite setCell_out.
Qed.

(** With fuel for every cell of the board [floodFill] runs to completion. *)
Lemma floodFill_runs fuel m x y :
  wf m → inMap m x y = true →
  (Z.to_nat (w m) * Z.to_nat (h m) ≤ fuel)%nat →
  ∃ m' calls, floodFill fuel m x y = Some (m', calls) ∧ filled m x y m' calls.
Proof.
  intros Hwf Hin Hfuel. unfold floodFill.
  set (m1 := setCell m x y 3 0).
  assert (∀ a b, inMap m1 a b = inMap m a b) as Hin1
    by (intros; apply inMap_setCell).
  assert (∀ a b i, i ≠ 3 → getCell m1 a b i = getCell m a b i) as Hget1.
  { intros a b i Hi. unfold m1. rewrite getCell_setCell.
    case_decide; [|done]. unfold getCell.
    destruct (cell_at m a b) as [c|]; [|done]. simpl.
    destruct i as [|[[]|[]|]|]; done. }
  assert (∀ a b, cell_at m1 a b =
    (if decide ((a, b) = (x, y)) then uncover else id) <$> cell_at m a b) as Hcell1.
  { intros a b. unfold m1. rewrite cell_at_setCell. case_decide.
    - by destruct (cell_at m a b) as [[]|].
    - by destruct (cell_at m a b). }
  destruct (bool_decide (getCell m x y 0 = Some 0)) eqn:Hz.
  - apply bool_decide_eq_true in Hz.
    destruct (_flood_runs fuel x y (mkFlood m1 (visited_new m1) []))
      as (st' & rest & Hrun & Hfl & Hcl & Hju); simpl.
    + by apply wf_setCell.
    + apply vwf_new.
    + by rewrite Hin1.
    + apply vget_new.
    + etrans; [apply unvisited_le|]. unfold m1.
      by rewrite w_setCell, h_setCell.
    + rewrite Hrun. simpl. exists (fl_map st'), (fl_calls st').
      split; [done|].
      destruct Hfl as [Hwf' Hvwf' Hw' Hh' Hlog Hnd Hfr Hmk Hc]. simpl in *.
      rewrite Hlog in *. unfold m1 in Hw', Hh'.
      rewrite w_setCell in Hw'. rewrite h_setCell in Hh'.
      assert (∀ a b, inMap m a b = true →
                vget (fl_visited st') a b = true ↔ (a, b) ∈ (x, y) :: rest) as Hv.
      { intros a b Hab. rewrite Hmk by (by rewrite Hin1).
        rewrite vget_new. split; [by intros [?|?]|by right]. }
      split; try done.
      * intros a b Hab. rewrite <- Hin1. by apply Hfr.
      * intros a b. rewrite Hc, Hcell1.
        destruct (cell_at m a b) as [c|]; [|done]. simpl.
        repeat case_decide; simpl; first [done | exfalso; tauto].
      * split; [intros _; left|done].
      * intros a b d Hab Hzero Hd Hind. apply Hv; [done|].
        eapply (Hcl a b d); [done| |done|by rewrite Hin1].
        by rewrite Hget1.
      * intros a b Hab. destruct (Hju a b Hab) as [?|(p & q & Hpq & ?)]; [by left|].
        right. exists p, q. by rewrite <- (Hget1 p q 0).
  - apply bool_decide_eq_false in Hz. exists m1, []. split; [done|].
    split; try done.
    + by apply wf_setCell.
    + apply w_setCell.
    + apply h_setCell.
    + constructor.
    + intros a b Hab. by apply elem_of_nil in Hab.
    + intros a b. rewrite Hcell1.
      destruct (cell_at m a b) as [c|]; [|done]. simpl.
      pose proof (not_elem_of_nil (a, b)).
      repeat case_decide; simpl; first [done | exfalso; tauto].
    + split; [done|]. intros Hel. by apply elem_of_nil in Hel.
    + intros a b d Hab. by apply elem_of_nil in Hab.
    + intros a b Hab. by apply elem_of_nil in Hab.
Qed.

(** Whatever the fuel and the start, a completed [floodFill] is the run
    described by [filled]. *)
Lemma floodFill_filled fuel m x y m' calls :
  wf m → floodFill fuel m x y = Some (m', calls) → filled m x y m' calls.
Proof.
  intros Hwf Hrun. destruct (inMap m x y) eqn:Hin.
  - set (big := (fuel `max` (Z.to_nat (w m) * Z.to_nat (h m)))%nat).
    destruct (floodFill_runs big m x y Hwf Hin)
      as (m2 & calls2 & Hrun2 & Hfilled); [lia|].
    enough (floodFill big m x y = Some (m', calls)) by congruence.
    unfold floodFill in *. destruct (bool_decide _); [|done].
    destruct (_flood fuel x y _) as [st|] eqn:Hst; [|done].
    rewrite (_flood_fuel_mono fuel big _ _ _ st) by (lia || done). done.
  - rewrite floodFill_out in Hrun by done. simplify_eq.
    assert (getCell m' x y 0 = None) as Hnone by (by apply getCell_None).
    assert (cell_at m' x y = None) as Hcell
      by (unfold cell_at; by rewrite Hin).
    split; try done.
    + constructor.
    + intros a b Hab. by apply elem_of_nil in Hab.
    + intros a b. pose proof (not_elem_of_nil (a, b)).
      case_decide as Hd; [|by destruct (cell_at m' a b)].
      destruct Hd as [Heq|?]; [|done]. simplify_eq. by rewrite Hcell.
    + rewrite Hnone. split; [done|]. intros Hel. by apply elem_of_nil in Hel.
    + intros a b d Hab. by apply elem_of_nil in Hab.
    + intros a b Hab. by apply elem_of_nil in Hab.
Qed.

(** ** Boards with the same mines *)

Lemma same_mines_refl m : same_mines m m.
Proof. by split_and!. Qed.

Lemma same_mines_trans m1 m2 m3 :
  same_mines m1 m2 → same_mines m2 m3 → same_mines m1 m3.
Proof.
  intros (Hw2 & Hh2 & H2) (Hw3 & Hh3 & H3). split_and!; [congruence..|].
  intros a b. destruct (H2 a b) as [<- <-]. apply H3.
Qed.

Lemma mined_same_mines m m' a b :
  same_mines m m' → mined m' a b ↔ mined m a b.
Proof. intros (_ & _ & Hs). unfold mined. by destruct (Hs a b) as [_ ->]. Qed.

Lemma count_bombs_same_mines m m' :
  same_mines m m' → count_bombs m' = count_bombs m.
Proof.
  intros Hs. unfold count_bombs.
  rewrite (all_cells_eq m m') by apply Hs.
  apply length_filter_agree. intros [a b] _. simpl.
  symmetry. by apply mined_same_mines.
Qed.

Lemma block_count_same_mines m m' a b :
  same_mines m m' → block_count m' a b = block_count m a b.
Proof.
  intros Hs. unfold block_count. f_equal.
  apply length_filter_agree. intros [dx dy] _. simpl.
  symmetry. by apply mined_same_mines.
Qed.

Lemma consistent_same_mines m m' :
  same_mines m m' → consistent m → consistent m'.
Proof.
  intros Hs Hcons a b c' Hc'. rewrite (block_count_same_mines m) by done.
  destruct Hs as (_ & _ & Hs). destruct (Hs a b) as [Hnum _].
  unfold getCell in Hnum. rewrite Hc' in Hnum. simpl in Hnum.
  destruct (cell_at m a b) as [c|] eqn:Hc; simplify_eq/=.
  rewrite Hnum. by apply Hcons.
Qed.

(** ** Uncovering *)

Lemma only_uncovers_refl m : only_uncovers m m.
Proof. intros a b. by left. Qed.

Lemma only_uncovers_trans m1 m2 m3 :
  only_uncovers m1 m2 → only_uncovers m2 m3 → only_uncovers m1 m3.
Proof.
  intros H12 H23 a b.
  destruct (H23 a b) as [->| ->], (H12 a b) as [->| ->];
    [by left|by right|by right|right].
  by destruct (cell_at m1 a b).
Qed.

Lemma only_uncovers_setCell m x y : only_uncovers m (setCell m x y 3 0).
Proof.
  intros a b. rewrite cell_at_setCell. case_decide; [|by left].
  right. by destruct (cell_at m a b) as [[]|].
Qed.

Lemma only_uncovers_getCell m m' a b i :
  only_uncovers m m' → i ≠ 3 → getCell m' a b i = getCell m a b i.
Proof.
  intros Hu Hi. unfold getCell. destruct (Hu a b) as [->| ->]; [done|].
  destruct (cell_at m a b) as [c|]; [|done]. simpl.
  destruct i as [|[[]|[]|]|]; done.
Qed.

Lemma only_uncovers_keeps m m' : only_uncovers m m' → keeps_uncovered m m'.
Proof.
  intros Hu a b. unfold getCell. destruct (Hu a b) as [->| ->]; [done|].
  by destruct (cell_at m a b).
Qed.

Lemma only_uncovers_same_mines m m' :
  w m' = w m → h m' = h m → only_uncovers m m' → same_mines m m'.
Proof.
  intros Hw Hh Hu. split_and!; [done..|]. intros a b.
  by rewrite !(only_uncovers_getCell m m').
Qed.

Lemma only_uncovers_filled m x y m' calls :
  filled m x y m' calls → only_uncovers m m'.
Proof.
  intros Hf a b. rewrite (filled_cells _ _ _ _ _ Hf). case_decide; [by right|].
  left. by destruct (cell_at m a b).
Qed.

Lemma revealBombs_fold l :
  ∀ m acc,
  w acc = w m → h acc = h m → (wf m → wf acc) → only_uncovers m acc →
  w (foldl reveal_if_bomb acc l) = w m ∧
  h (foldl reveal_if_bomb acc l) = h m ∧
  (wf m → wf (foldl reveal_if_bomb acc l)) ∧
  only_uncovers m (foldl reveal_if_bomb acc l).
Proof.
  induction l as [|[x y] l IH]; intros m acc Hw Hh Hwf Hu; [done|].
  simpl. apply IH; unfold reveal_if_bomb; simpl.
  - destruct (bool_decide _); [by rewrite w_setCell|done].
  - destruct (bool_decide _); [by rewrite h_setCell|done].
  - intros Hm. destruct (bool_decide _); [by apply wf_setCell, Hwf|by apply Hwf].
  - destruct (bool_decide _); [|done].
    eapply only_uncovers_trans; [done|apply only_uncovers_setCell].
Qed.

Lemma revealBombs_spec m :
  w (revealBombs m) = w m ∧ h (revealBombs m) = h m ∧
  (wf m → wf (revealBombs m)) ∧ only_uncovers m (revealBombs m).
Proof.
  unfold revealBombs. apply (revealBombs_fold (all_cells m) m m); try done.
  apply only_uncovers_refl.
Qed.

(** ** What the placement loop keeps, on every board and for every draw *)

Lemma generateBombs_loop_keeps forbidden bombCount draws :
  ∀ count m m' rest,
  generateBombs_loop forbidden bombCount draws count m = Some (m', rest) →
  w m' = w m ∧ h m' = h m ∧ (wf m → wf m') ∧ same_flags_covered m m'.
Proof.
  induction draws as [|[x y] draws IH]; intros count m m' rest Hrun;
    simpl in Hrun; destruct (count <? bombCount); simplify_eq;
    try (split_and!; [done..|apply same_flags_covered_refl]).
  destruct (bool_decide ((x, y) ∈ forbidden)); [by eapply IH|].
  destruct (bool_decide (getCell m x y 1 = Some 1)); [by eapply IH|].
  apply IH in Hrun as (Hw & Hh & Hwf & Hfl).
  rewrite w_placeBomb in Hw. rewrite h_placeBomb in Hh.
  split_and!; [done..| |].
  - intros Hm. by apply Hwf, wf_placeBomb.
  - eapply same_flags_covered_trans; [|done].
    apply same_flags_covered_placeBomb.
Qed.

Lemma keeps_uncovered_trans m1 m2 m3 :
  keeps_uncovered m1 m2 → keeps_uncovered m2 m3 → keeps_uncovered m1 m3.
Proof. intros H12 H23 a b Hu. by apply H23, H12. Qed.

Lemma same_flags_covered_keeps m m' :
  same_flags_covered m m' → keeps_uncovered m m'.
Proof. intros Hs a b Hu. destruct (Hs a b) as [_ ->]. done. Qed.

(** ** Game.start *)

Lemma start_keeps x y s s1 :
  start x y s = Some s1 →
  w (map s1) = w (map s) ∧ h (map s1) = h (map s) ∧
  (wf (map s) → wf (map s1)) ∧ same_flags_covered (map s) (map s1) ∧
  started (game s1) = true ∧ bombs (game s1) = bombs (game s) ∧
  flags (game s1) = bombs (game s) ∧ status (game s1) = StatusPlaying ∧
  ai s1 = ai s.
Proof.
  unfold start, generateBombs. intros Hrun.
  destruct (generateBombs_loop _ _ _ _ _) as [[m rest]|] eqn:Hgen;
    simplify_eq/=.
  apply generateBombs_loop_keeps in Hgen as (? & ? & ? & ?). by split_and!.
Qed.

Lemma start_placed x y s s1 :
  wf (map s) → draws_in (map s) (random s) →
  start x y s = Some s1 →
  placed (forbidden_cells (map s) x y) (Z.max 0 (bombs (game s)))
         (map s) (map s1) ∧
  draws_in (map s1) (random s1).
Proof.
  unfold start. intros Hwf Hin Hrun.
  destruct (generateBombs _ _ _ _ _) as [[m rest]|] eqn:Hgen; simplify_eq/=.
  pose proof (generateBombs_placed _ _ _ _ _ _ _ Hwf Hin Hgen) as Hp.
  split; [done|]. unfold generateBombs in Hgen.
  apply generateBombs_loop_placed in Hgen as [_ [used Hused]]; [|done..].
  rewrite Hused in Hin. apply Forall_app in Hin as [_ Hin].
  eapply draws_in_eq; [apply Hp..|done].
Qed.

(** ** The reveal *)

(** [Game.finish] leaves a terminal match. *)
Lemma finish_terminal r s : terminal (finish r s).
Proof. destruct r; split; simpl; auto. Qed.

(** What a completed reveal leaves in place. *)
Lemma reveal_keeps fuel x y s1 r s' :
  wf (map s1) → reveal fuel x y s1 = Some (r, s') →
  w (map s') = w (map s1) ∧ h (map s') = h (map s1) ∧ wf (map s') ∧
  only_uncovers (map s1) (map s') ∧
  bombs (game s') = bombs (game s1) ∧ flags (game s') = flags (game s1) ∧
  random s' = random s1 ∧
  (status (game s') = StatusLost →
   status (game s1) = StatusLost ∨ mined (map s1) x y).
Proof.
  intros Hwf. unfold reveal.
  destruct (bool_decide (getCell (map s1) x y 2 = Some 1)).
  { intros [= <- <-]. split_and!; try done; [apply only_uncovers_refl|by left]. }
  destruct (bool_decide (getCell (map s1) x y 1 = Some 1)) eqn:Hbomb.
  { apply bool_decide_eq_true in Hbomb. intros [= <- <-]. simpl.
    destruct (revealBombs_spec (setCell (map s1) x y 3 0)) as (Hw & Hh & Hwf' & Hu).
    rewrite w_setCell in Hw. rewrite h_setCell in Hh.
    split_and!; try done; [by apply Hwf', wf_setCell| |by right].
    eapply only_uncovers_trans; [apply only_uncovers_setCell|done]. }
  destruct (bool_decide (getCell (map s1) x y 3 = Some 1)).
  2: { intros [= <- <-]. split_and!; try done; [apply only_uncovers_refl|by left]. }
  destruct (floodFill fuel (map s1) x y) as [[m2 calls]|] eqn:Hfill; [|done].
  pose proof (floodFill_filled _ _ _ _ _ _ Hwf Hfill) as Hf. simpl.
  destruct (checkWin m2); intros [= <- <-]; simpl;
    (split_and!;
     [apply Hf|apply Hf|apply Hf|by eapply only_uncovers_filled
     |done|done|done|]).
  - done.
  - by left.
Qed.

(** On a board with consistent numbers the reveal of a cell without a
    mine leaves every mined cell as it is. *)
Lemma block_count_zero m p q a b :
  block_count m p q = 0 → near p q a b → ¬ mined m a b.
Proof.
  unfold block_count. intros Hz Hnear Hm.
  assert ((a - p, b - q) ∈
          filter (λ d, mined m (p + d.1) (q + d.2)) block_dy_dx) as Hel.
  { apply list_elem_of_filter. split.
    - simpl. by replace (p + (a - p)) with a by lia;
        replace (q + (b - q)) with b by lia.
    - apply elem_of_block. unfold near in Hnear. lia. }
  destruct (filter _ block_dy_dx); [by apply elem_of_nil in Hel|].
  simpl in Hz. lia.
Qed.

Lemma block_count_mined m a b : mined m a b → 1 <= block_count m a b.
Proof.
  intros Hm. destruct (decide (block_count m a b = 0)) as [Hz|Hnz].
  - exfalso. apply (block_count_zero m a b a b Hz); [|done]. unfold near. lia.
  - unfold block_count in *. lia.
Qed.

Lemma filled_spares_mines m x y m' calls :
  consistent m → ¬ mined m x y → filled m x y m' calls →
  ∀ a b, mined m a b → cell_at m' a b = cell_at m a b.
Proof.
  intros Hcons Hxy Hf a b Hab. rewrite (filled_cells _ _ _ _ _ Hf).
  rewrite decide_False; [by destruct (cell_at m a b)|].
  intros [Heq|Hel]; [by simplify_eq|].
  destruct (filled_justified _ _ _ _ _ Hf a b Hel) as [Heq|(p & q & Hz & Hnear)];
    [by simplify_eq|].
  apply (block_count_zero m p q a b); [|done..].
  unfold getCell in Hz. destruct (cell_at m p q) as [c|] eqn:Hc; simplify_eq/=.
  by rewrite <- (Hcons p q c).
Qed.

Lemma reveal_spares_mines fuel x y s1 r s' :
  wf (map s1) → consistent (map s1) → ¬ mined (map s1) x y →
  reveal fuel x y s1 = Some (r, s') →
  ∀ a b, mined (map s1) a b → cell_at (map s') a b = cell_at (map s1) a b.
Proof.
  intros Hwf Hcons Hxy. unfold reveal.
  destruct (bool_decide (getCell (map s1) x y 2 = Some 1)).
  { by intros [= <- <-]. }
  rewrite bool_decide_eq_false_2 by done.
  destruct (bool_decide (getCell (map s1) x y 3 = Some 1)).
  2: { by intros [= <- <-]. }
  destruct (floodFill fuel (map s1) x y) as [[m2 calls]|] eqn:Hfill; [|done].
  pose proof (floodFill_filled _ _ _ _ _ _ Hwf Hfill) as Hf. simpl.
  destruct (checkWin m2); intros [= <- <-]; simpl;
    by eapply filled_spares_mines.
Qed.

(** ** The flag toggle *)

Lemma cellRightClicked_keeps x y s :
  let s' := cellRightClicked x y s in
  w (map s') = w (map s) ∧ h (map s') = h (map s) ∧
  (wf (map s) → wf (map s')) ∧
  (∀ a b i, i ≠ 2 → getCell (map s') a b i = getCell (map s) a b i) ∧
  (∀ a b, (a, b) ≠ (x, y) → cell_at (map s') a b = cell_at (map s) a b) ∧
  started (game s') = started (game s) ∧ status (game s') = status (game s) ∧
  bombs (game s') = bombs (game s) ∧ random s' = random s ∧ ai s' = ai s.
Proof.
  assert (∀ v a b i, i ≠ 2 →
    getCell (setCell (map s) x y 2 v) a b i = getCell (map s) a b i) as Hget.
  { intros v a b i Hi. rewrite getCell_setCell. case_decide; [|done].
    unfold getCell. destruct (cell_at (map s) a b) as [c|]; [|done]. simpl.
    destruct i as [|[[]|[]|]|]; done. }
  assert (∀ v a b, (a, b) ≠ (x, y) →
    cell_at (setCell (map s) x y 2 v) a b = cell_at (map s) a b) as Hcell.
  { intros v a b Hne. rewrite cell_at_setCell. by rewrite decide_False. }
  unfold cellRightClicked, placeFlag, removeFlag.
  destruct (bool_decide (getCell (map s) x y 3 = Some 1)); [|done].
  destruct (bool_decide (getCell (map s) x y 2 = Some 0)).
  - destruct (flags (game s) <? 1); simpl; [done|].
    split_and!; try done; [apply w_setCell|apply h_setCell|apply wf_setCell|
                           apply Hget|apply Hcell].
  - simpl. split_and!; try done;
      [apply w_setCell|apply h_setCell|apply wf_setCell|apply Hget|apply Hcell].
Qed.

(** ** Steps and runs *)

Lemma cellClicked_keeps fuel x y s r s' :
  wf (map s) → cellClicked fuel x y s = Some (r, s') →
  w (map s') = w (map s) ∧ h (map s') = h (map s) ∧ wf (map s') ∧
  keeps_uncovered (map s) (map s') ∧ bombs (game s') = bombs (game s).
Proof.
  intros Hwf. unfold cellClicked.
  destruct (negb (turn_gate (ai s))).
  { intros [= <- <-]. split_and!; [done..|by intros a b ?|done]. }
  destruct (started (game s)); simpl.
  - intros Hrev.
    apply reveal_keeps in Hrev as (? & ? & ? & Hu & ? & _); [|done].
    split_and!; try done. by apply only_uncovers_keeps.
  - destruct (start x y s) as [s1|] eqn:Hstart; [|done]. simpl. intros Hrev.
    apply start_keeps in Hstart as (Hw & Hh & Hwf1 & Hfl & _ & Hb & _).
    apply reveal_keeps in Hrev as (? & ? & ? & Hu & ? & _); [|by apply Hwf1].
    split_and!; try congruence.
    eapply keeps_uncovered_trans;
      [by apply same_flags_covered_keeps|by apply only_uncovers_keeps].
Qed.

Lemma step_keeps s o s' :
  wf (map s) → step s o = Some s' →
  w (map s') = w (map s) ∧ h (map s') = h (map s) ∧ wf (map s') ∧
  keeps_uncovered (map s) (map s').
Proof.
  intros Hwf. destruct o as [fuel x y|x y|n sx sy|fuel x y| |env]; simpl.
  - destruct (cellClicked fuel x y s) as [[r s1]|] eqn:Hc; [|done].
    intros [= <-]. simpl.
    apply cellClicked_keeps in Hc as (? & ? & ? & ? & _); done.
  - intros [= <-].
    destruct (cellRightClicked_keeps x y s) as (? & ? & Hwf' & Hget & _).
    split_and!; [done|done|by apply Hwf'|].
    intros a b Hu. by rewrite Hget.
  - unfold generateBombs.
    destruct (generateBombs_loop _ _ _ _ _) as [[m rest]|] eqn:Hgen; [|done].
    intros [= <-]. simpl.
    apply generateBombs_loop_keeps in Hgen as (? & ? & Hwf' & ?).
    split_and!; [done|done|by apply Hwf'|by apply same_flags_covered_keeps].
  - destruct (floodFill fuel (map s) x y) as [[m calls]|] eqn:Hfill; [|done].
    intros [= <-]. simpl.
    pose proof (floodFill_filled _ _ _ _ _ _ Hwf Hfill) as Hf.
    split_and!; [apply Hf..|].
    by eapply only_uncovers_keeps, only_uncovers_filled.
  - intros [= <-]. simpl.
    destruct (revealBombs_spec (map s)) as (? & ? & Hwf' & ?).
    split_and!; [done|done|by apply Hwf'|by apply only_uncovers_keeps].
  - intros [= <-]. simpl. split_and!; [done..|by intros a b ?].
Qed.

Lemma run_keeps ops :
  ∀ s s', wf (map s) → run s ops = Some s' →
  w (map s') = w (map s) ∧ h (map s') = h (map s) ∧ wf (map s') ∧
  keeps_uncovered (map s) (map s').
Proof.
  induction ops as [|o ops IH]; intros s s' Hwf Hrun; simpl in Hrun.
  { simplify_eq. split_and!; [done..|by intros a b ?]. }
  destruct (step s o) as [s1|] eqn:Hstep; [|done]. simpl in Hrun.
  apply step_keeps in Hstep as (Hw1 & Hh1 & Hwf1 & Hk1); [|done].
  apply IH in Hrun as (Hw & Hh & Hwf' & Hk); [|done].
  split_and!; [congruence|congruence|done|by eapply keeps_uncovered_trans].
Qed.

(** *** Soundness of the reachable states *)

Lemma sound_initialize width height nbombs env draws :
  draws_in (Map_new width height) draws →
  sound (initialize width height nbombs env draws).
Proof.
  intros Hin. split_and!; simpl; [apply wf_new| |done].
  apply consistent_unmined, unmined_new.
Qed.

Lemma sound_only_uncovers s m' rnd :
  sound s → w m' = w (map s) → h m' = h (map s) → wf m' →
  only_uncovers (map s) m' → draws_in (map s) rnd →
  wf m' ∧ consistent m' ∧ draws_in m' rnd.
Proof.
  intros (Hwf & Hcons & Hin) Hw Hh Hwf' Hu Hrnd. split_and!; [done| |].
  - eapply consistent_same_mines; [|done]. by apply only_uncovers_same_mines.
  - by eapply draws_in_eq.
Qed.

Lemma sound_start x y s s1 : sound s → start x y s = Some s1 → sound s1.
Proof.
  intros (Hwf & Hcons & Hin) Hstart.
  destruct (start_placed x y s s1 Hwf Hin Hstart) as [Hp Hin1].
  split_and!; [apply Hp|by apply Hp|done].
Qed.

Lemma sound_reveal fuel x y s1 r s' :
  sound s1 → reveal fuel x y s1 = Some (r, s') → sound s'.
Proof.
  intros Hs Hrev. pose proof Hs as (Hwf & Hcons & Hin).
  apply reveal_keeps in Hrev as (Hw & Hh & Hwf' & Hu & _ & _ & Hrnd & _);
    [|done].
  rewrite <- Hrnd in Hin. by eapply sound_only_uncovers.
Qed.

Lemma sound_cellClicked fuel x y s r s' :
  sound s → cellClicked fuel x y s = Some (r, s') → sound s'.
Proof.
  intros Hs. unfold cellClicked. destruct (negb (turn_gate (ai s))).
  { by intros [= <- <-]. }
  destruct (started (game s)); simpl; [by apply sound_reveal|].
  destruct (start x y s) as [s1|] eqn:Hstart; [|done]. simpl.
  apply sound_reveal. by eapply sound_start.
Qed.

Lemma sound_step s o s' : sound s → step s o = Some s' → sound s'.
Proof.
  intros Hs. pose proof Hs as (Hwf & Hcons & Hin).
  destruct o as [fuel x y|x y|n sx sy|fuel x y| |env]; simpl.
  - destruct (cellClicked fuel x y s) as [[r s1]|] eqn:Hc; [|done].
    intros [= <-]. by eapply sound_cellClicked.
  - intros [= <-].
    destruct (cellRightClicked_keeps x y s)
      as (Hw & Hh & Hwf' & Hget & _ & _ & _ & _ & Hrnd & _).
    split_and!; [by apply Hwf'| |].
    + eapply consistent_same_mines; [|done]. split_and!; [done..|].
      intros a b. by rewrite !Hget.
    + rewrite Hrnd. by eapply draws_in_eq.
  - destruct (generateBombs (map s) n sx sy (random s)) as [[m rest]|] eqn:Hgen;
      [|done].
    intros [= <-]. simpl.
    pose proof (generateBombs_placed _ _ _ _ _ _ _ Hwf Hin Hgen) as Hp.
    split_and!; [apply Hp|by apply Hp|].
    unfold generateBombs in Hgen.
    apply generateBombs_loop_placed in Hgen as [_ [used Hused]]; [|done..].
    rewrite Hused in Hin. apply Forall_app in Hin as [_ Hin].
    eapply draws_in_eq; [apply Hp..|done].
  - destruct (floodFill fuel (map s) x y) as [[m calls]|] eqn:Hfill; [|done].
    intros [= <-]. simpl.
    pose proof (floodFill_filled _ _ _ _ _ _ Hwf Hfill) as Hf.
    eapply (sound_only_uncovers s); [done|apply Hf..| |done].
    by eapply only_uncovers_filled.
  - intros [= <-]. simpl.
    destruct (revealBombs_spec (map s)) as (? & ? & Hwf' & ?).
    eapply (sound_only_uncovers s); [done..|by apply Hwf'|done|done].
  - by intros [= <-].
Qed.

Lemma sound_run ops : ∀ s s', sound s → run s ops = Some s' → sound s'.
Proof.
  induction ops as [|o ops IH]; intros s s' Hs Hrun; simpl in Hrun.
  { by simplify_eq. }
  destruct (step s o) as [s1|] eqn:Hstep; [|done]. simpl in Hrun.
  eapply IH; [|done]. by eapply sound_step.
Qed.

Lemma sound_reachable s : reachable s → sound s.
Proof.
  intros (width & height & nbombs & env & draws & ops & Hin & Hrun).
  eapply sound_run; [|done]. by apply sound_initialize.
Qed.

(** ** What floodFill reaches *)

Lemma flood_reach_inMap m x y a b : flood_reach m x y a b → inMap m a b = true.
Proof. by intros [|]. Qed.

Lemma flood_reach_eq m m' x y a b :
  w m' = w m → h m' = h m →
  (∀ a b, getCell m' a b 0 = getCell m a b 0) →
  flood_reach m x y a b → flood_reach m' x y a b.
Proof.
  intros Hw Hh Hnum. induction 1 as [Hin|a b d _ IH Hz Hd Hin].
  - apply reach_start. by rewrite (inMap_eq m m').
  - apply reach_step; [done|by rewrite Hnum|done|by rewrite (inMap_eq m m')].
Qed.

Lemma flood_reach_trans m x y p q a b :
  flood_reach m x y p q → flood_reach m p q a b → flood_reach m x y a b.
Proof.
  intros Hpq. induction 1 as [Hin|a b d _ IH Hz Hd Hin]; [done|].
  by apply reach_step.
Qed.

Lemma reaches_only_mark st x y :
  inMap (fl_map st) x y = true →
  reaches_only x y st
    (mkFlood (setCell (fl_map st) x y 3 0) (vset (fl_visited st) x y)
             (fl_calls st ++ [(x, y)])).
Proof.
  intros Hin. split_and!; simpl.
  - apply w_setCell.
  - apply h_setCell.
  - intros a b. apply only_uncovers_getCell; [apply only_uncovers_setCell|done].
  - exists [(x, y)]. split; [done|]. intros a b Hab.
    apply list_elem_of_singleton in Hab. simplify_eq. by apply reach_start.
Qed.

Section visit_neighbours_reach.
Variable rec : Z → Z → Flood → option Flood.
Hypothesis rec_reaches : ∀ a b s s',
  inMap (fl_map s) a b = true → rec a b s = Some s' → reaches_only a b s s'.

Variables (x y : Z) (st0 : Flood).
Hypothesis start_here : inMap (fl_map st0) x y = true.
Hypothesis zero_here : getCell (fl_map st0) x y 0 = Some 0.

Lemma visit_neighbours_reach ds :
  ∀ s s',
  (∀ d, d ∈ ds → d ∈ around_dx_dy) →
  reaches_only x y st0 s →
  foldl (visit_neighbour rec x y) (Some s) ds = Some s' →
  reaches_only x y st0 s'.
Proof.
  induction ds as [|d ds IH]; intros s s' Hds Hs Hrun.
  { simpl in Hrun. by simplify_eq. }
  assert (∀ d', d' ∈ ds → d' ∈ around_dx_dy) as Hds'
    by (intros d' Hd'; apply Hds; by right).
  simpl in Hrun.
  destruct (inMap (fl_map s) (x + d.1) (y + d.2)
            && negb (vget (fl_visited s) (x + d.1) (y + d.2))) eqn:Hgo;
    [|by eapply IH].
  apply andb_true_iff in Hgo as [Hin _].
  destruct (rec (x + d.1) (y + d.2) s) as [s2|] eqn:Hrec;
    [|by rewrite visit_neighbours_None in Hrun].
  apply (IH s2 s'); [done| |done].
  destruct Hs as (Hw & Hh & Hnum & new & Hlog & Hnew).
  destruct (rec_reaches _ _ _ _ Hin Hrec) as (Hw2 & Hh2 & Hnum2 & new2 & Hlog2 & Hnew2).
  split_and!; [congruence|congruence| |].
  - intros a b. by rewrite Hnum2, Hnum.
  - exists (new ++ new2). split; [by rewrite Hlog2, Hlog, app_assoc|].
    intros a b Hab. apply elem_of_app in Hab as [Hab|Hab]; [by apply Hnew|].
    apply (flood_reach_trans _ _ _ (x + d.1) (y + d.2)).
    + apply reach_step; [by apply reach_start|done|apply Hds; left|].
      by rewrite <- (inMap_eq (fl_map st0) (fl_map s)).
    + apply (flood_reach_eq (fl_map s)); [done..| |by apply Hnew2].
      intros a' b'. by rewrite Hnum.
Qed.
End visit_neighbours_reach.

Lemma _flood_reaches fuel :
  ∀ x y st st',
  inMap (fl_map st) x y = true →
  _flood fuel x y st = Some st' → reaches_only x y st st'.
Proof.
  induction fuel as [|fuel IH]; intros x y st st' Hin Hrun; [done|].
  rewrite _flood_S in Hrun. cbv zeta in Hrun.
  pose proof (reaches_only_mark st x y Hin) as Hmark.
  destruct (bool_decide _) eqn:Hz; [by simplify_eq|].
  apply bool_decide_eq_false in Hz.
  eapply (visit_neighbours_reach (_flood fuel) IH x y st Hin);
    [|done|done|exact Hrun].
  destruct Hmark as (_ & _ & Hnum & _). simpl in Hnum. rewrite <- Hnum.
  by destruct (decide (getCell (setCell (fl_map st) x y 3 0) x y 0 = Some 0)).
Qed.

Lemma floodFill_uncovers_iff fuel m x y m' calls :
  wf m → floodFill fuel m x y = Some (m', calls) →
  filled m x y m' calls ∧
  ∀ a b, ((a, b) = (x, y) ∧ inMap m x y = true) ∨ (a, b) ∈ calls ↔
         flood_reach m x y a b.
Proof.
  intros Hwf Hrun. pose proof (floodFill_filled _ _ _ _ _ _ Hwf Hrun) as Hf.
  split; [done|]. intros a b. split.
  - intros [[Heq Hin]|Hab]; [simplify_eq; by apply reach_start|].
    unfold floodFill in Hrun.
    destruct (bool_decide (getCell m x y 0 = Some 0)) eqn:Hz;
      [|simplify_eq; by apply elem_of_nil in Hab].
    destruct (_flood fuel x y _) as [st|] eqn:Hst; simplify_eq/=.
    assert (inMap m x y = true) as Hin.
    { apply (filled_inMap _ _ _ _ _ Hf), (filled_start _ _ _ _ _ Hf).
      by apply bool_decide_eq_true in Hz. }
    apply _flood_reaches in Hst as (_ & _ & _ & new & Hlog & Hnew);
      [|simpl; by rewrite inMap_setCell].
    simpl in *. rewrite Hlog in Hab. apply (flood_reach_eq (setCell m x y 3 0));
      [by rewrite w_setCell|by rewrite h_setCell| |by apply Hnew].
    intros a' b'. symmetry.
    apply only_uncovers_getCell; [apply only_uncovers_setCell|done].
  - induction 1 as [Hin|a b d _ IH Hz Hd Hin]; [by left|]. right.
    apply (filled_closed _ _ _ _ _ Hf); [|done..].
    destruct IH as [[Heq _]|?]; [|done]. simplify_eq.
    by apply (filled_start _ _ _ _ _ Hf).
Qed.

(** ** Placement without room *)

Lemma length_filter_or {A} (P Q R : A → Prop)
    `{∀ x, Decision (P x)} `{∀ x, Decision (Q x)} `{∀ x, Decision (R x)}
    (l : list A) :
  (∀ x, x ∈ l → P x → Q x ∨ R x) →
  (length (filter P l) ≤ length (filter Q l) + length (filter R l))%nat.
Proof.
  induction l as [|x l IH]; intros Hl; [done|].
  assert (length (filter P l) ≤ length (filter Q l) + length (filter R l))%nat
    as IH' by (apply IH; intros z Hz; apply Hl; by right).
  rewrite !filter_cons.
  destruct (decide (P x)) as [HP|], (decide (Q x)), (decide (R x));
    simpl; try lia.
  destruct (Hl x) as [?|?]; [by left|done|done|done].
Qed.

(** The loop cannot place more bombs than there are unmined cells outside
    the forbidden zone: with fewer of them than [bombCount] it runs for
    ever, whichever cells of the board are drawn. *)
Lemma generateBombs_needs_room m bombCount startX startY draws :
  wf m → draws_in m draws →
  Z.of_nat (length (room_cells m startX startY)) < bombCount →
  generateBombs m bombCount startX startY draws = None.
Proof.
  intros Hwf Hin Hroom.
  destruct (generateBombs m bombCount startX startY draws) as [[m' rest]|]
    eqn:Hrun; [|done].
  exfalso.
  pose proof (generateBombs_placed _ _ _ _ _ _ _ Hwf Hin Hrun) as Hp.
  pose proof (placed_count _ _ _ _ Hp) as Hcount.
  assert (count_bombs m' ≤
          count_bombs m + length (room_cells m startX startY))%nat; [|lia].
  unfold count_bombs, room_cells. rewrite (all_cells_eq m m') by apply Hp.
  apply (length_filter_or (λ p, mined m' p.1 p.2) (λ p, mined m p.1 p.2)
           (λ p, ¬ mined m p.1 p.2 ∧ p ∉ forbidden_cells m startX startY)).
  intros [a b] _ Hab. simpl in *.
  destruct (placed_new _ _ _ _ Hp a b Hab) as [?|?]; [by left|].
  destruct (decide (mined m a b)); [by left|by right].
Qed.

(** * The claims *)

(** ** Mine placement *)

(** C1.  On a board that holds no mine yet, a completed
    [generateBombs(bombCount, startX, startY)] leaves exactly [bombCount]
    cells with the bomb attribute set, and none of them lies in the 3x3
    block around [(startX, startY)]. *)
Theorem generateBombs_exact_and_safe m bombCount startX startY draws m' rest :
  wf m → unmined m → 0 <= bombCount → draws_in m draws →
  generateBombs m bombCount startX startY draws = Some (m', rest) →
  Z.of_nat (count_bombs m') = bombCount ∧
  ∀ a b, mined m' a b → ¬ near startX startY a b.
Proof.
  intros Hwf Hun Hn Hin Hrun.
  destruct (generateBombs_placed _ _ _ _ _ _ _ Hwf Hin Hrun)
    as [_ Hw Hh Hcount Hnew _ _ _].
  split.
  - rewrite Hcount, count_bombs_unmined by done. lia.
  - intros a b Hab Hnear. destruct (Hnew a b Hab) as [Hold|Hfree].
    + by apply (unmined_not_mined m a b).
    + apply Hfree, elem_of_forbidden_cells. split; [|done].
      rewrite <- (inMap_eq m m') by done. by apply mined_inMap.
Qed.

Lemma generateBombs_exact_and_safe_witness :
  ∃ m', generateBombs (Map_new 3 3) 2 0 0 [(0, 0); (2, 2); (2, 2); (2, 0)]
          = Some (m', []) ∧
        Z.of_nat (count_bombs m') = 2 ∧
        ∀ a b, mined m' a b → ¬ near 0 0 a b.
Proof.
  eexists. split; [vm_compute; reflexivity|].
  apply (generateBombs_exact_and_safe (Map_new 3 3) 2 0 0
           [(0, 0); (2, 2); (2, 2); (2, 0)] _ []).
  - apply wf_new.
  - apply unmined_new.
  - lia.
  - repeat constructor.
  - vm_compute. reflexivity.
Defined.

(** What the code does instead of C2.  After a completed placement every
    cell's number is the count of the mined cells of the 3x3 block centred
    on it: the mined cells among its eight neighbours, plus one when the
    cell holds a mine itself. *)
Lemma numbers_count_the_block m bombCount startX startY draws m' rest :
  wf m → unmined m → draws_in m draws →
  generateBombs m bombCount startX startY draws = Some (m', rest) →
  ∀ a b, inMap m' a b = true →
    getCell m' a b 0 =
    Some (around_count m' a b + (if decide (mined m' a b) then 1 else 0)).
Proof.
  intros Hwf Hun Hin Hrun a b Hab.
  destruct (generateBombs_placed _ _ _ _ _ _ _ Hwf Hin Hrun)
    as [Hwf' _ _ _ _ _ Hcons _].
  destruct (cell_at_is_Some m' a b Hwf' Hab) as [c Hc].
  unfold getCell. rewrite Hc. simpl. f_equal.
  rewrite <- block_count_around. apply Hcons; [|done].
  by apply consistent_unmined.
Qed.

(** C2, evaluated where it fails.  [generateBombs(1, 0, 0)] on a fresh
    4x1 board with the draw [(3, 0)]: the cell [(3, 0)] holds the mine,
    none of its neighbours is mined, and its number is 1, not 0: the loop
    that updates the numbers also visits the offset [(0, 0)]. *)
Theorem mined_cell_counts_itself :
  ∃ m', generateBombs (Map_new 4 1) 1 0 0 [(3, 0)] = Some (m', []) ∧
        mined m' 3 0 ∧
        around_count m' 3 0 = 0 ∧
        getCell m' 3 0 0 = Some 1.
Proof.
  eexists. split; [vm_compute; reflexivity|].
  split_and!; vm_compute; reflexivity.
Qed.

(** ** Flood fill *)

(** C3.  From every cell of the board [floodFill] runs to completion once
    the fuel covers the cells of the board; [_flood] is invoked on no
    cell twice, hence at most [w * h] times. *)
Theorem floodFill_terminates fuel m x y :
  wf m → inMap m x y = true →
  (Z.to_nat (w m) * Z.to_nat (h m) ≤ fuel)%nat →
  ∃ m' calls,
    floodFill fuel m x y = Some (m', calls) ∧
    NoDup calls ∧
    (length calls ≤ Z.to_nat (w m) * Z.to_nat (h m))%nat.
Proof.
  intros Hwf Hin Hfuel.
  destruct (floodFill_runs fuel m x y Hwf Hin Hfuel) as (m' & calls & Hrun & Hf).
  exists m', calls. split_and!; [done|apply Hf|].
  apply length_le_all_cells; apply Hf.
Qed.

Lemma floodFill_terminates_witness :
  ∃ m' calls,
    floodFill 9 (Map_new 3 3) 1 1 = Some (m', calls) ∧
    NoDup calls ∧ (length calls ≤ 9)%nat.
Proof.
  apply (floodFill_terminates 9 (Map_new 3 3) 1 1).
  - apply wf_new.
  - reflexivity.
  - simpl. lia.
Defined.

(** C7.  [floodFill] does not look at flags.  From every start on the
    board it runs to completion, [_flood] is invoked on exactly the cells
    of the flood-fill expansion (the chain of cells with number 0 from
    the start, and the neighbours of the chain; flags play no part in
    it), and every cell of the expansion, flagged or not, ends uncovered
    with its flag attribute as it was: a flagged cell of the expansion is
    uncovered and still flagged. *)
Theorem floodFill_ignores_flags fuel m startX startY :
  wf m → inMap m startX startY = true →
  (Z.to_nat (w m) * Z.to_nat (h m) ≤ fuel)%nat →
  ∃ m' calls,
    floodFill fuel m startX startY = Some (m', calls) ∧
    (∀ a b, (a, b) ∈ calls ↔
       flood_reach m startX startY a b ∧ getCell m startX startY 0 = Some 0) ∧
    (∀ a b, flood_reach m startX startY a b →
       getCell m' a b 3 = Some 0 ∧ getCell m' a b 2 = getCell m a b 2) ∧
    (∀ a b, flood_reach m startX startY a b → flagged m a b →
       getCell m' a b 3 = Some 0 ∧ flagged m' a b).
Proof.
  intros Hwf Hin Hfuel.
  destruct (floodFill_runs fuel m startX startY Hwf Hin Hfuel)
    as (m' & calls & Hrun & Hf).
  destruct (floodFill_uncovers_iff _ _ _ _ _ _ Hwf Hrun) as [_ Hiff].
  assert (∀ a b, flood_reach m startX startY a b →
            getCell m' a b 3 = Some 0 ∧ getCell m' a b 2 = getCell m a b 2)
    as Hopen.
  { intros a b Hreach.
    destruct (cell_at_is_Some m a b Hwf (flood_reach_inMap _ _ _ _ _ Hreach))
      as [c Hc].
    apply Hiff in Hreach.
    unfold getCell. rewrite (filled_cells _ _ _ _ _ Hf), Hc.
    rewrite decide_True; [done|]. tauto. }
  exists m', calls. split_and!; [done| |done|].
  - intros a b. split.
    + intros Hab. split; [apply Hiff; by right|].
      destruct (decide (getCell m startX startY 0 = Some 0)) as [?|Hnz];
        [done|].
      rewrite (filled_empty _ _ _ _ _ Hf Hnz) in Hab.
      by apply elem_of_nil in Hab.
    + intros [Hreach Hz]. apply Hiff in Hreach as [[Heq _]|?]; [|done].
      simplify_eq. by apply (filled_start _ _ _ _ _ Hf).
  - intros a b Hreach Hflag. destruct (Hopen a b Hreach) as [Hc Hfl].
    split; [done|]. unfold flagged in *. by rewrite Hfl.
Qed.

Lemma floodFill_ignores_flags_witness :
  let m := setCell (Map_new 3 1) 1 0 2 1 in
  ∃ m' calls,
    floodFill 3 m 0 0 = Some (m', calls) ∧
    (∀ a b, (a, b) ∈ calls ↔
       flood_reach m 0 0 a b ∧ getCell m 0 0 0 = Some 0) ∧
    (∀ a b, flood_reach m 0 0 a b →
       getCell m' a b 3 = Some 0 ∧ getCell m' a b 2 = getCell m a b 2) ∧
    (∀ a b, flood_reach m 0 0 a b → flagged m a b →
       getCell m' a b 3 = Some 0 ∧ flagged m' a b).
Proof.
  intros m. apply (floodFill_ignores_flags 3 m 0 0).
  - apply wf_setCell, wf_new.
  - reflexivity.
  - vm_compute. lia.
Defined.

(** ** The life cycle of a match *)

(** C4, as the code has it.  Once [Game.finish] has run, the engine still
    takes actions; the board has cells, so [Math.random] draws cells of
    the board.  A flag action places no mine, restarts nothing and
    uncovers nothing: [started], the status, [bombs], the turn globals
    and the draws ahead are as before, no number, bomb or covered
    attribute changes, and no cell but its target changes at all.  A
    reveal action is turned away only by the turn guards, and then it
    changes nothing.  Past the guards it finds [started] reset and runs
    [Game.start] again: if the call returns, the budget is reset to
    [bombs] and the board holds [max(0, bombs)] more mines than before;
    if fewer than [bombs] cells are left that hold no mine and lie outside
    the 3x3 block of the click, the placement loop never ends and the
    call does not return. *)
Theorem terminal_match_still_takes_actions s :
  terminal s → wf (map s) → 0 < w (map s) → 0 < h (map s) →
  draws_in (map s) (random s) →
  (∀ x y,
     terminal (cellRightClicked x y s) ∧
     status (game (cellRightClicked x y s)) = status (game s) ∧
     bombs (game (cellRightClicked x y s)) = bombs (game s) ∧
     ai (cellRightClicked x y s) = ai s ∧
     random (cellRightClicked x y s) = random s ∧
     same_mines (map s) (map (cellRightClicked x y s)) ∧
     (∀ a b, getCell (map (cellRightClicked x y s)) a b 3
             = getCell (map s) a b 3) ∧
     (∀ a b, (a, b) ≠ (x, y) →
        cell_at (map (cellRightClicked x y s)) a b = cell_at (map s) a b)) ∧
  (∀ fuel x y, turn_gate (ai s) = false →
     cellClicked fuel x y s = Some (false, s)) ∧
  (∀ fuel x y r s', turn_gate (ai s) = true →
     cellClicked fuel x y s = Some (r, s') →
     Z.of_nat (count_bombs (map s')) =
     Z.of_nat (count_bombs (map s)) + Z.max 0 (bombs (game s)) ∧
     flags (game s') = bombs (game s)) ∧
  (∀ fuel x y, turn_gate (ai s) = true →
     Z.of_nat (length (room_cells (map s) x y)) < bombs (game s) →
     cellClicked fuel x y s = None).
Proof.
  intros [Hst Hstatus] Hwf _ _ Hin. split_and!.
  - intros x y.
    destruct (cellRightClicked_keeps x y s)
      as (Hw & Hh & _ & Hget & Hcell & Hs & Hq & Hb & Hr & Ha).
    split_and!; [|done..| | |done].
    + unfold terminal. by rewrite Hs, Hq.
    + split_and!; [done..|]. intros a b. by rewrite !Hget.
    + intros a b. by rewrite Hget.
  - intros fuel x y Hgate. unfold cellClicked. by rewrite Hgate.
  - intros fuel x y r s' Hgate. unfold cellClicked. rewrite Hgate, Hst. simpl.
    destruct (start x y s) as [s1|] eqn:Hstart; [|done]. simpl. intros Hrev.
    destruct (start_placed x y s s1 Hwf Hin Hstart) as [Hp _].
    apply start_keeps in Hstart as (_ & _ & _ & _ & _ & _ & Hflags & _).
    apply reveal_keeps in Hrev as (Hw & Hh & _ & Hu & _ & Hfl & _);
      [|apply Hp].
    split; [|by rewrite Hfl].
    rewrite (count_bombs_same_mines (map s1))
      by (by apply only_uncovers_same_mines).
    apply Hp.
  - intros fuel x y Hgate Hroom. unfold cellClicked, start.
    rewrite Hgate, Hst. simpl.
    by rewrite generateBombs_needs_room.
Qed.

Lemma terminal_match_still_takes_actions_witness :
  ∃ s, run (initialize 4 1 1 None [(3, 0); (1, 0)]) [OpCellClicked 4 0 0] = Some s ∧
    terminal (cellRightClicked 3 0 s) ∧
    (∀ r s', cellClicked 4 3 0 s = Some (r, s') →
       Z.of_nat (count_bombs (map s')) = Z.of_nat (count_bombs (map s)) + 1 ∧
       flags (game s') = 1) ∧
    cellClicked 4 1 0 s = None.
Proof.
  eexists. split; [vm_compute; reflexivity|].
  match goal with
  | |- context [cellRightClicked 3 0 ?s] =>
      destruct (terminal_match_still_takes_actions s)
        as (Hflag & _ & Hstart & Hloop)
  end.
  - split; [reflexivity|left; reflexivity].
  - split; [reflexivity|repeat constructor].
  - reflexivity.
  - reflexivity.
  - repeat constructor.
  - split_and!.
    + exact (proj1 (Hflag 3 0)).
    + intros r s' Hclick. apply (Hstart 4%nat 3 0 r s'); [reflexivity|exact Hclick].
    + apply (Hloop 4%nat 1 0); [reflexivity|vm_compute; reflexivity].
Defined.

(** C4, as stated, fails: on a won 4x1 board a reveal of the mined cell
    runs [Game.start] again, which places a second mine on an uncovered
    cell, and the match is lost; a flag action on the same board sets
    the flag of the covered cell. *)
Lemma won_match_is_restarted_by_a_click :
  ∃ s s1,
    run (initialize 4 1 1 None [(3, 0); (1, 0)]) [OpCellClicked 4 0 0] = Some s ∧
    started (game s) = false ∧ status (game s) = StatusWon ∧
    cellClicked 4 3 0 s = Some (false, s1) ∧
    getCell (map s) 1 0 1 = Some 0 ∧ getCell (map s1) 1 0 1 = Some 1 ∧
    status (game s1) = StatusLost ∧
    getCell (map s) 3 0 2 = Some 0 ∧
    getCell (map (cellRightClicked 3 0 s)) 3 0 2 = Some 1.
Proof.
  eexists. eexists. split; [vm_compute; reflexivity|].
  split_and!; vm_compute; reflexivity.
Qed.

(** ** The flag budget *)

Lemma cellClicked_flags fuel x y s r s' :
  wf (map s) → cellClicked fuel x y s = Some (r, s') →
  flags (game s') = flags (game s) ∨ flags (game s') = bombs (game s).
Proof.
  intros Hwf. unfold cellClicked. destruct (negb (turn_gate (ai s))).
  { intros [= <- <-]. by left. }
  destruct (started (game s)); simpl.
  - intros Hrev.
    apply reveal_keeps in Hrev as (_ & _ & _ & _ & _ & -> & _); [|done].
    by left.
  - destruct (start x y s) as [s1|] eqn:Hstart; [|done]. simpl. intros Hrev.
    apply start_keeps in Hstart as (_ & _ & Hwf1 & _ & _ & _ & Hfl & _).
    apply reveal_keeps in Hrev as (_ & _ & _ & _ & _ & -> & _); [|by apply Hwf1].
    by right.
Qed.

(** The lower bound of the budget holds: with a mine count that is not
    negative, no run takes the flag budget below zero. *)
Lemma flags_never_negative width height nbombs env draws ops s :
  0 <= nbombs →
  run (initialize width height nbombs env draws) ops = Some s →
  0 <= flags (game s) ∧ bombs (game s) = nbombs.
Proof.
  intros Hn.
  assert (∀ s0 s1, wf (map s0) → 0 <= flags (game s0) → bombs (game s0) = nbombs →
            run s0 ops = Some s1 →
            0 <= flags (game s1) ∧ bombs (game s1) = nbombs) as Hgen.
  { induction ops as [|o ops IH]; intros s0 s1 Hwf Hfl Hb Hrun; simpl in Hrun.
    { by simplify_eq. }
    destruct (step s0 o) as [s2|] eqn:Hstep; [|done]. simpl in Hrun.
    pose proof (step_keeps _ _ _ Hwf Hstep) as (_ & _ & Hwf2 & _).
    eapply (IH s2); [done| | |done].
    - destruct o as [fuel x y|x y|k sx sy|fuel x y| |e]; simpl in Hstep.
      + destruct (cellClicked fuel x y s0) as [[r s3]|] eqn:Hc; simplify_eq/=.
        destruct (cellClicked_flags _ _ _ _ _ _ Hwf Hc) as [-> | ->]; lia.
      + simplify_eq. unfold cellRightClicked, placeFlag, removeFlag.
        repeat (destruct (bool_decide _)); simpl; try done; [|lia].
        destruct (flags (game s0) <? 1) eqn:Hlt; simpl; [done|].
        apply Z.ltb_ge in Hlt. lia.
      + destruct (generateBombs _ _ _ _ _) as [[m rest]|]; by simplify_eq/=.
      + destruct (floodFill _ _ _ _) as [[m calls]|]; by simplify_eq/=.
      + by simplify_eq/=.
      + by simplify_eq/=.
    - destruct o as [fuel x y|x y|k sx sy|fuel x y| |e]; simpl in Hstep.
      + destruct (cellClicked fuel x y s0) as [[r s3]|] eqn:Hc; simplify_eq/=.
        by apply cellClicked_keeps in Hc as (_ & _ & _ & _ & ->).
      + simplify_eq.
        by destruct (cellRightClicked_keeps x y s0)
          as (_ & _ & _ & _ & _ & _ & _ & -> & _).
      + destruct (generateBombs _ _ _ _ _) as [[m rest]|]; by simplify_eq/=.
      + destruct (floodFill _ _ _ _) as [[m calls]|]; by simplify_eq/=.
      + by simplify_eq/=.
      + by simplify_eq/=. }
  apply Hgen; [apply wf_new|simpl; lia|done].
Qed.

(** C5, evaluated where it fails.  On a 5x1 board with one mine: flag
    [(4, 0)] before the first reveal, reveal [(0, 0)], which resets the
    budget in [Game.start] while the flag stays on the board, then remove
    the flag.  The budget is 2, one more than the mine count. *)
Theorem flag_budget_exceeds_mine_count :
  ∃ s,
    run (initialize 5 1 1 None [(3, 0)])
        [OpCellRightClicked 4 0; OpCellClicked 5 0 0; OpCellRightClicked 4 0]
      = Some s ∧
    bombs (game s) = 1 ∧ flags (game s) = 2.
Proof. eexists. split_and!; vm_compute; reflexivity. Qed.

(** ** Flagged cells and cells off the board *)

(** During a started match a reveal of a flagged cell answers [false] and
    changes nothing. *)
Lemma flagged_click_blocked fuel x y s :
  started (game s) = true → getCell (map s) x y 2 = Some 1 →
  cellClicked fuel x y s = Some (false, s).
Proof.
  intros Hst Hflag. unfold cellClicked, reveal.
  destruct (negb (turn_gate (ai s))); [done|].
  rewrite Hst. simpl. by rewrite bool_decide_eq_true_2.
Qed.

(** C6, evaluated where it fails.  On a fresh 4x1 board with one mine,
    flag [(0, 0)] and then reveal it as the first reveal of the match:
    the answer is [false], but [Game.start] has run before the flag test,
    so the match is started and the mine is placed. *)
Theorem flagged_first_click_places_mines :
  ∃ s s',
    run (initialize 4 1 1 None [(3, 0)]) [OpCellRightClicked 0 0] = Some s ∧
    getCell (map s) 0 0 2 = Some 1 ∧
    started (game s) = false ∧ count_bombs (map s) = 0%nat ∧
    cellClicked 4 0 0 s = Some (false, s') ∧
    started (game s') = true ∧ count_bombs (map s') = 1%nat ∧
    getCell (map s') 3 0 1 = Some 1 ∧ getCell (map s') 2 0 0 = Some 1.
Proof.
  eexists. eexists. split; [vm_compute; reflexivity|].
  split_and!; vm_compute; reflexivity.
Qed.

(** C9, as the code has it.  Off the board [setCell] leaves the grid as
    it is, [getCell] has no value, and during a started match a reveal
    answers [false] and changes nothing. *)
Theorem out_of_bounds_is_ignored s x y :
  inMap (map s) x y = false →
  (∀ i v, setCell (map s) x y i v = map s) ∧
  (∀ i, getCell (map s) x y i = None) ∧
  (started (game s) = true → ∀ fuel, cellClicked fuel x y s = Some (false, s)).
Proof.
  intros Hout. split_and!.
  - intros i v. by apply setCell_out.
  - intros i. by apply getCell_None.
  - intros Hst fuel. unfold cellClicked, reveal.
    destruct (negb (turn_gate (ai s))); [done|].
    rewrite Hst. simpl. by rewrite !getCell_None by done.
Qed.

Lemma out_of_bounds_is_ignored_witness :
  ∃ s, run (initialize 4 1 1 None [(3, 0)]) [OpCellRightClicked 0 0; OpCellClicked 4 0 0]
         = Some s ∧
    (∀ i v, setCell (map s) 7 2 i v = map s) ∧
    (∀ i, getCell (map s) 7 2 i = None) ∧
    (started (game s) = true → ∀ fuel, cellClicked fuel 7 2 s = Some (false, s)).
Proof.
  eexists. split; [vm_compute; reflexivity|].
  apply (out_of_bounds_is_ignored _ 7 2). reflexivity.
Defined.

(** C9, as stated, fails before the match has started: a reveal at
    [(5, 5)] of a fresh 2x1 board runs [Game.start], which places the
    mine. *)
Lemma click_off_the_board_places_mines :
  ∃ s',
    inMap (map (initialize 2 1 1 None [(0, 0)])) 5 5 = false ∧
    cellClicked 0 5 5 (initialize 2 1 1 None [(0, 0)]) = Some (false, s') ∧
    getCell (map (initialize 2 1 1 None [(0, 0)])) 0 0 1 = Some 0 ∧
    getCell (map s') 0 0 1 = Some 1 ∧
    started (game s') = true.
Proof.
  eexists. split; [reflexivity|]. split; [vm_compute; reflexivity|].
  split_and!; vm_compute; reflexivity.
Qed.

(** ** Uncovering is one-way *)

(** C8.  Every cell of a constructed board is covered, and along every
    run of the engine on that board a cell that is uncovered stays
    uncovered. *)
Theorem reveal_is_one_way width height nbombs env draws ops ops' s s' :
  run (initialize width height nbombs env draws) ops = Some s →
  run s ops' = Some s' →
  (∀ x y, inMap (Map_new width height) x y = true →
     getCell (Map_new width height) x y 3 = Some 1) ∧
  (∀ x y, getCell (map s) x y 3 = Some 0 → getCell (map s') x y 3 = Some 0).
Proof.
  intros Hrun Hrun'. split.
  - intros x y Hin. unfold getCell. by rewrite cell_at_new.
  - apply run_keeps in Hrun as (_ & _ & Hwf & _); [|apply wf_new].
    by apply run_keeps in Hrun' as (_ & _ & _ & Hk).
Qed.

Lemma reveal_is_one_way_witness :
  ∃ s s',
    run (initialize 5 1 1 None [(3, 0)]) [OpCellRightClicked 4 0; OpCellClicked 5 0 0]
      = Some s ∧
    run s [OpCellRightClicked 4 0; OpCellClicked 5 3 0; OpRevealBombs] = Some s' ∧
    (∀ x y, inMap (Map_new 5 1) x y = true →
       getCell (Map_new 5 1) x y 3 = Some 1) ∧
    (∀ x y, getCell (map s) x y 3 = Some 0 → getCell (map s') x y 3 = Some 0).
Proof.
  eexists. eexists. split; [vm_compute; reflexivity|].
  split; [vm_compute; reflexivity|].
  apply (reveal_is_one_way 5 1 1 None [(3, 0)]
           [OpCellRightClicked 4 0; OpCellClicked 5 0 0]
           [OpCellRightClicked 4 0; OpCellClicked 5 3 0; OpRevealBombs]).
  - vm_compute. reflexivity.
  - vm_compute. reflexivity.
Defined.

(** ** Flood fill and mines *)

(** C10.  On every board reached from its construction every mined cell
    has a number of at least 1, and a reveal of a cell without a mine,
    flood fill included, changes the covered attribute of no mined cell
    and does not lose the match. *)
Theorem flood_never_uncovers_a_mine s fuel x y r s' :
  reachable s → cellClicked fuel x y s = Some (r, s') →
  (∀ a b, mined (map s') a b →
     ∃ k, getCell (map s') a b 0 = Some k ∧ 1 <= k) ∧
  (¬ mined (map s') x y →
     (∀ a b, mined (map s') a b →
        getCell (map s') a b 3 = getCell (map s) a b 3) ∧
     (status (game s') = StatusLost → status (game s) = StatusLost)).
Proof.
  intros Hreach Hclick. apply sound_reachable in Hreach as Hs.
  pose proof (sound_cellClicked _ _ _ _ _ _ Hs Hclick) as (Hwf' & Hcons' & _).
  split.
  { intros a b Hab. pose proof Hab as Hm. unfold mined, getCell in Hab.
    destruct (cell_at (map s') a b) as [c|] eqn:Hc; simplify_eq/=.
    exists (number c). unfold getCell. rewrite Hc. split; [done|].
    rewrite (Hcons' a b c Hc). by apply block_count_mined. }
  intros Hxy. unfold cellClicked in Hclick.
  destruct (negb (turn_gate (ai s))); [by simplify_eq|].
  assert (∀ s1, sound s1 → reveal fuel x y s1 = Some (r, s') →
    (∀ a b, mined (map s') a b →
       getCell (map s') a b 3 = getCell (map s1) a b 3) ∧
    (status (game s') = StatusLost → status (game s1) = StatusLost)) as Hrev.
  { intros s1 (Hwf1 & Hcons1 & _) Hrev.
    pose proof (reveal_keeps _ _ _ _ _ _ Hwf1 Hrev)
      as (Hw & Hh & _ & Hu & _ & _ & _ & Hlost).
    pose proof (only_uncovers_same_mines _ _ Hw Hh Hu) as Hsame.
    assert (¬ mined (map s1) x y) as Hxy1
      by (by rewrite <- (mined_same_mines (map s1) (map s'))).
    split.
    - intros a b Hab. apply (mined_same_mines (map s1)) in Hab; [|done].
      unfold getCell. by rewrite (reveal_spares_mines _ _ _ _ _ _ Hwf1 Hcons1 Hxy1 Hrev).
    - intros Hl. by destruct (Hlost Hl). }
  destruct (started (game s)); simpl in Hclick; [by apply Hrev|].
  destruct (start x y s) as [s1|] eqn:Hstart; [|done]. simpl in Hclick.
  destruct (Hrev s1) as [Hcov Hlost]; [by eapply sound_start|done|].
  apply start_keeps in Hstart as (_ & _ & _ & Hfl & _ & _ & _ & Hplaying & _).
  split.
  - intros a b Hab. rewrite (Hcov a b Hab). apply Hfl.
  - intros Hl. apply Hlost in Hl. congruence.
Qed.

Lemma flood_never_uncovers_a_mine_witness :
  ∃ s s',
    run (initialize 5 1 1 None [(3, 0)]) [OpCellRightClicked 4 0] = Some s ∧
    cellClicked 5 0 0 s = Some (true, s') ∧
    (∀ a b, mined (map s') a b →
       ∃ k, getCell (map s') a b 0 = Some k ∧ 1 <= k) ∧
    (¬ mined (map s') 0 0 →
       (∀ a b, mined (map s') a b →
          getCell (map s') a b 3 = getCell (map s) a b 3) ∧
       (status (game s') = StatusLost → status (game s) = StatusLost)).
Proof.
  eexists. eexists. split; [vm_compute; reflexivity|].
  split; [vm_compute; reflexivity|].
  apply (flood_never_uncovers_a_mine _ 5 0 0 true).
  - exists 5, 1, 1, None, [(3, 0)], [OpCellRightClicked 4 0].
    split; [repeat constructor|vm_compute; reflexivity].
  - vm_compute. reflexivity.
Defined.

(** * Further properties of the engine *)

(** ** The accessors *)

Lemma cell_get_set_eq c i v : 0 <= i <= 3 → cell_get (cell_set c i v) i = Some v.
Proof.
  intros Hi.
  assert (i = 0 ∨ i = 1 ∨ i = 2 ∨ i = 3) as [ -> | [ -> | [ -> | -> ] ] ] by lia;
    done.
Qed.

Lemma cell_get_set_ne c i v j :
  i ≠ j → cell_get (cell_set c i v) j = cell_get c j.
Proof.
  intros Hne.
  destruct i as [ | [ [?|?|] | [?|?|] | ] | ? ],
           j as [ | [ [?|?|] | [?|?|] | ] | ? ]; simpl; congruence.
Qed.

(** X1.  Writing a slot of a cell of the board and reading it back gives
    the written value, and the write is seen in no other slot and no other
    cell. *)
Theorem setCell_then_getCell m x y i v :
  wf m → inMap m x y = true → 0 <= i <= 3 →
  getCell (setCell m x y i v) x y i = Some v ∧
  ∀ a b j, (a, b, j) ≠ (x, y, i) →
    getCell (setCell m x y i v) a b j = getCell m a b j.
Proof.
  intros Hwf Hin Hi. split.
  - rewrite getCell_setCell, decide_True by done.
    destruct (cell_at_is_Some m x y Hwf Hin) as [c ->]. simpl.
    by apply cell_get_set_eq.
  - intros a b j Hne. rewrite getCell_setCell. case_decide as Heq; [|done].
    simplify_eq. unfold getCell.
    destruct (cell_at m x y) as [c|]; [|done]. simpl.
    apply cell_get_set_ne. by intros ->.
Qed.

Lemma setCell_then_getCell_witness :
  getCell (setCell (Map_new 3 2) 2 1 2 1) 2 1 2 = Some 1 ∧
  ∀ a b j, (a, b, j) ≠ (2, 1, 2) →
    getCell (setCell (Map_new 3 2) 2 1 2 1) a b j = getCell (Map_new 3 2) a b j.
Proof.
  apply (setCell_then_getCell (Map_new 3 2) 2 1 2 1).
  - apply wf_new.
  - reflexivity.
  - lia.
Defined.

(** ** Placement on a board without room *)

Lemma mined_in_free_cells forbidden k m m' a b :
  unmined m → placed forbidden k m m' → mined m' a b →
  inMap m a b = true ∧ (a, b) ∉ forbidden.
Proof.
  intros Hun Hp Hab. split.
  - rewrite <- (inMap_eq m m') by apply Hp. by apply mined_inMap.
  - destruct (placed_new _ _ _ _ Hp a b Hab) as [Hold|?]; [|done].
    by apply unmined_not_mined in Hold.
Qed.

(** X2.  On a board with cells ([w > 0] and [h > 0], so that every draw
    of [Math.random] is a cell of the board) and without mines: with
    fewer cells outside the forbidden zone than bombs to place,
    [generateBombs] does not complete, whichever cells it draws: the loop
    of the source never ends. *)
Theorem generateBombs_without_room m bombCount startX startY draws :
  wf m → 0 < w m → 0 < h m → unmined m → draws_in m draws →
  Z.of_nat (length (free_cells m startX startY)) < bombCount →
  generateBombs m bombCount startX startY draws = None.
Proof.
  intros Hwf _ _ Hun Hin Hroom.
  destruct (generateBombs m bombCount startX startY draws) as [[m' rest]|] eqn:Hrun;
    [|done].
  exfalso.
  pose proof (generateBombs_placed _ _ _ _ _ _ _ Hwf Hin Hrun) as Hp.
  pose proof (placed_count _ _ _ _ Hp) as Hcount.
  rewrite (count_bombs_unmined m) in Hcount by done.
  assert (count_bombs m' ≤ length (free_cells m startX startY))%nat; [|lia].
  unfold count_bombs. apply submseteq_length, NoDup_submseteq.
  - apply NoDup_filter, NoDup_all_cells.
  - intros [a b] Hab. apply list_elem_of_filter in Hab as [Hab _]. simpl in Hab.
    destruct (mined_in_free_cells _ _ _ _ _ _ Hun Hp Hab).
    apply list_elem_of_filter. split; [done|]. by apply elem_of_all_cells.
Qed.

Lemma generateBombs_without_room_witness :
  generateBombs (Map_new 3 3) 1 1 1 [(0, 0); (2, 2); (1, 2)] = None.
Proof.
  apply generateBombs_without_room.
  - apply wf_new.
  - reflexivity.
  - reflexivity.
  - apply unmined_new.
  - repeat constructor.
  - vm_compute. reflexivity.
Defined.

(** ** revealBombs and the loss *)

Lemma mined_setCell_covered m x y a b :
  mined (setCell m x y 3 0) a b ↔ mined m a b.
Proof.
  unfold mined.
  by rewrite (only_uncovers_getCell m) by (apply only_uncovers_setCell || done).
Qed.

Lemma cell_at_uncover m x y a b :
  cell_at (setCell m x y 3 0) a b =
  if decide ((a, b) = (x, y)) then uncover <$> cell_at m a b else cell_at m a b.
Proof.
  rewrite cell_at_setCell. case_decide; [|done].
  by destruct (cell_at m a b) as [[]|].
Qed.

Lemma revealBombs_fold_cells m l :
  NoDup l → ∀ acc, (∀ a b, mined acc a b ↔ mined m a b) →
  ∀ a b,
    cell_at (foldl reveal_if_bomb acc l) a b =
    if decide ((a, b) ∈ l ∧ mined m a b) then uncover <$> cell_at acc a b
    else cell_at acc a b.
Proof.
  induction l as [|[x y] l IH]; intros Hnd acc Hm a b.
  { rewrite decide_False; [done|]. intros [Hel _].
    by apply elem_of_nil in Hel. }
  apply NoDup_cons in Hnd as [Hxy Hnd].
  change (foldl reveal_if_bomb acc ((x, y) :: l))
    with (foldl reveal_if_bomb (reveal_if_bomb acc (x, y)) l).
  rewrite IH; [|done|].
  2: { intros a' b'. unfold reveal_if_bomb. simpl.
       destruct (bool_decide _); [|done]. by rewrite mined_setCell_covered. }
  assert (cell_at (reveal_if_bomb acc (x, y)) a b =
          if decide ((a, b) = (x, y) ∧ mined m a b)
          then uncover <$> cell_at acc a b else cell_at acc a b) as ->.
  { unfold reveal_if_bomb. simpl.
    destruct (bool_decide (getCell acc x y 1 = Some 1)) eqn:Hb.
    - apply bool_decide_eq_true in Hb. apply (Hm x y) in Hb.
      rewrite cell_at_uncover.
      destruct (decide ((a, b) = (x, y))) as [Heq|Hne].
      + simplify_eq. by rewrite decide_True.
      + rewrite decide_False; [done|]. by intros [? _].
    - apply bool_decide_eq_false in Hb.
      rewrite decide_False; [done|]. intros [Heq Hab]. simplify_eq.
      by apply Hb, Hm. }
  destruct (decide ((a, b) = (x, y) ∧ mined m a b)) as [[Heq Hab]|Hn1],
           (decide ((a, b) ∈ l ∧ mined m a b)) as [[Hel Hab']|Hn2].
  - simplify_eq. by destruct Hxy.
  - rewrite decide_True; [done|]. split; [|done]. apply elem_of_cons. by left.
  - rewrite decide_True; [done|]. split; [|done]. apply elem_of_cons. by right.
  - rewrite decide_False; [done|]. intros [Hel ?].
    apply elem_of_cons in Hel as [?|?]; tauto.
Qed.

Lemma cell_at_revealBombs m a b :
  cell_at (revealBombs m) a b =
  if decide (mined m a b) then uncover <$> cell_at m a b else cell_at m a b.
Proof.
  unfold revealBombs.
  rewrite (revealBombs_fold_cells m) by (apply NoDup_all_cells || done).
  destruct (decide (mined m a b)) as [Hab|Hab].
  - rewrite decide_True; [done|]. split; [|done].
    by apply elem_of_all_cells, mined_inMap.
  - rewrite decide_False; [done|]. by intros [_ ?].
Qed.

(** X3.  [revealBombs] uncovers every cell that holds a bomb and changes
    nothing else: no other cell, and no number, bomb or flag attribute. *)
Theorem revealBombs_uncovers_the_mines m a b :
  (mined m a b → getCell (revealBombs m) a b 3 = Some 0) ∧
  (¬ mined m a b → cell_at (revealBombs m) a b = cell_at m a b) ∧
  (∀ i, i ≠ 3 → getCell (revealBombs m) a b i = getCell m a b i).
Proof.
  pose proof (cell_at_revealBombs m a b) as Hcell.
  split_and!.
  - intros Hab. unfold getCell. rewrite Hcell, decide_True by done.
    unfold mined, getCell in Hab. by destruct (cell_at m a b).
  - intros Hab. by rewrite Hcell, decide_False.
  - intros i Hi. apply only_uncovers_getCell; [|done]. apply revealBombs_spec.
Qed.

(** X4.  During a started match a reveal of a mined cell that carries no
    flag answers [false] and loses the match: [started] is reset, every
    mined cell ends uncovered, every other cell is as before, and the flag
    budget is unchanged. *)
Theorem clicking_a_mine_loses fuel x y s :
  started (game s) = true → turn_gate (ai s) = true →
  mined (map s) x y → ¬ flagged (map s) x y →
  ∃ s',
    cellClicked fuel x y s = Some (false, s') ∧
    status (game s') = StatusLost ∧ started (game s') = false ∧
    flags (game s') = flags (game s) ∧
    (∀ a b, mined (map s) a b → getCell (map s') a b 3 = Some 0) ∧
    (∀ a b, ¬ mined (map s) a b → cell_at (map s') a b = cell_at (map s) a b).
Proof.
  intros Hst Hgate Hmined Hflag. unfold cellClicked, reveal.
  rewrite Hgate, Hst. simpl.
  rewrite bool_decide_eq_false_2 by done.
  rewrite bool_decide_eq_true_2 by done.
  eexists. split; [done|]. simpl. split_and!; try done.
  - intros a b Hab. apply (mined_setCell_covered _ x y) in Hab.
    unfold getCell. rewrite (cell_at_revealBombs _ a b).
    destruct (decide (mined (setCell (map s) x y 3 0) a b)); [|done].
    unfold mined, getCell in Hab.
    by destruct (cell_at (setCell (map s) x y 3 0) a b).
  - intros a b Hab. rewrite (cell_at_revealBombs _ a b).
    destruct (decide (mined (setCell (map s) x y 3 0) a b)) as [Hm|_];
      [by apply mined_setCell_covered in Hm|].
    rewrite cell_at_uncover, decide_False; [done|].
    intros Heq. by simplify_eq.
Qed.

Lemma clicking_a_mine_loses_witness :
  ∃ s,
    run (initialize 5 1 1 None [(3, 0)]) [OpCellClicked 5 0 0] = Some s ∧
    ∃ s',
      cellClicked 0 3 0 s = Some (false, s') ∧
      status (game s') = StatusLost ∧ started (game s') = false ∧
      flags (game s') = flags (game s) ∧
      (∀ a b, mined (map s) a b → getCell (map s') a b 3 = Some 0) ∧
      (∀ a b, ¬ mined (map s) a b → cell_at (map s') a b = cell_at (map s) a b).
Proof.
  eexists. split; [vm_compute; reflexivity|].
  apply (clicking_a_mine_loses 0 3 0).
  - reflexivity.
  - reflexivity.
  - vm_compute. reflexivity.
  - vm_compute. discriminate.
Defined.

(** ** checkWin and the win *)

Lemma checkWin_spec m : checkWin m = true ↔ all_safe_uncovered m.
Proof.
  unfold checkWin, all_safe_uncovered. rewrite forallb_forall. split.
  - intros Hall a b Hin [Hb Hc].
    assert (In (a, b) (all_cells m)) as Hel
      by (by apply list_elem_of_In, elem_of_all_cells).
    apply Hall in Hel. simpl in Hel.
    by rewrite !bool_decide_eq_true_2 in Hel by done.
  - intros Hall [a b] Hel. apply list_elem_of_In, elem_of_all_cells in Hel.
    apply negb_true_iff, andb_false_iff.
    destruct (bool_decide (getCell m a b 1 = Some 0)) eqn:Hb; [|by left].
    right. apply bool_decide_eq_false. intros Hc.
    apply bool_decide_eq_true in Hb. by apply (Hall a b Hel).
Qed.

(** X5.  A reveal that answers [true] ends the match as won exactly when
    it leaves no cell without a bomb covered; otherwise the match goes
    on. *)
Theorem reveal_wins_exactly_when_done fuel x y s s' :
  cellClicked fuel x y s = Some (true, s') →
  (all_safe_uncovered (map s') →
     status (game s') = StatusWon ∧ started (game s') = false) ∧
  (¬ all_safe_uncovered (map s') → started (game s') = true).
Proof.
  unfold cellClicked. destruct (negb (turn_gate (ai s))); [done|].
  assert (∀ s1, started (game s1) = true →
            reveal fuel x y s1 = Some (true, s') →
            (all_safe_uncovered (map s') →
               status (game s') = StatusWon ∧ started (game s') = false) ∧
            (¬ all_safe_uncovered (map s') → started (game s') = true)) as Hrev.
  { intros s1 Hst. unfold reveal.
    repeat (destruct (bool_decide _); [done|]).
    destruct (bool_decide _); [|done].
    destruct (floodFill fuel (map s1) x y) as [[m2 calls]|]; [|done]. simpl.
    destruct (checkWin m2) eqn:Hwin; intros [= <-]; simpl.
    - split; [done|]. intros Hn. by apply checkWin_spec in Hwin.
    - split; [|done]. intros Hall. apply checkWin_spec in Hall. congruence. }
  destruct (started (game s)) eqn:Hst; simpl; [by apply Hrev|].
  destruct (start x y s) as [s1|] eqn:Hstart; [|done]. simpl.
  apply Hrev. by apply start_keeps in Hstart as (_ & _ & _ & _ & ? & _).
Qed.

Lemma reveal_wins_exactly_when_done_witness :
  ∃ s',
    cellClicked 4 0 0 (initialize 4 1 1 None [(3, 0)]) = Some (true, s') ∧
    (all_safe_uncovered (map s') →
       status (game s') = StatusWon ∧ started (game s') = false) ∧
    (¬ all_safe_uncovered (map s') → started (game s') = true).
Proof.
  eexists. split; [vm_compute; reflexivity|].
  apply (reveal_wins_exactly_when_done 4 0 0 (initialize 4 1 1 None [(3, 0)])).
  vm_compute. reflexivity.
Defined.

Lemma all_safe_kept m m' :
  w m' = w m → h m' = h m →
  (∀ a b, getCell m' a b 1 = Some 0 → getCell m a b 1 = Some 0) →
  (∀ a b, getCell m' a b 3 = Some 1 → getCell m a b 3 = Some 1) →
  all_safe_uncovered m → all_safe_uncovered m'.
Proof.
  intros Hw Hh Hb Hc Hall a b Hin [Hb' Hc'].
  apply (Hall a b); [by rewrite <- (inMap_eq m m')|].
  split; [by apply Hb|by apply Hc].
Qed.

Lemma all_safe_only_uncovers m m' :
  w m' = w m → h m' = h m → only_uncovers m m' →
  all_safe_uncovered m → all_safe_uncovered m'.
Proof.
  intros Hw Hh Hu. apply all_safe_kept; [done..| |].
  - intros a b. by rewrite (only_uncovers_getCell m m').
  - intros a b. unfold getCell. destruct (Hu a b) as [->| ->]; [done|].
    by destruct (cell_at m a b).
Qed.

Lemma generateBombs_loop_safe forbidden bombCount draws :
  ∀ count m m' rest,
  generateBombs_loop forbidden bombCount draws count m = Some (m', rest) →
  ∀ a b, getCell m' a b 1 = Some 0 → getCell m a b 1 = Some 0.
Proof.
  induction draws as [|[x y] draws IH]; intros count m m' rest Hrun a b;
    simpl in Hrun; destruct (count <? bombCount); simplify_eq; try done.
  destruct (bool_decide ((x, y) ∈ forbidden)); [by eapply IH|].
  destruct (bool_decide (getCell m x y 1 = Some 1)); [by eapply IH|].
  intros Hab. eapply IH in Hab; [|done]. revert Hab.
  unfold getCell. rewrite cell_at_placeBomb.
  destruct (cell_at m a b) as [c|]; [|done]. simpl. by case_decide.
Qed.

Lemma all_safe_generateBombs m n sx sy draws m' rest :
  generateBombs m n sx sy draws = Some (m', rest) →
  all_safe_uncovered m → all_safe_uncovered m'.
Proof.
  unfold generateBombs. intros Hrun.
  pose proof (generateBombs_loop_keeps _ _ _ _ _ _ _ Hrun) as (Hw & Hh & _ & Hfl).
  apply all_safe_kept; [done..| |].
  - by eapply generateBombs_loop_safe.
  - intros a b. by destruct (Hfl a b) as [_ ->].
Qed.

Lemma all_safe_start x y s s1 :
  start x y s = Some s1 →
  all_safe_uncovered (map s) → all_safe_uncovered (map s1).
Proof.
  unfold start. intros Hrun.
  destruct (generateBombs _ _ _ _ _) as [[m rest]|] eqn:Hgen; simplify_eq/=.
  by eapply all_safe_generateBombs.
Qed.

Lemma all_safe_step s o s' :
  wf (map s) → step s o = Some s' →
  all_safe_uncovered (map s) → all_safe_uncovered (map s').
Proof.
  intros Hwf. destruct o as [fuel x y|x y|n sx sy|fuel x y| |env]; simpl.
  - destruct (cellClicked fuel x y s) as [[r s1]|] eqn:Hc; [|done].
    intros [= <-]. simpl. unfold cellClicked in Hc.
    destruct (negb (turn_gate (ai s))); [by simplify_eq|].
    destruct (started (game s)); simpl in Hc.
    + apply reveal_keeps in Hc as (? & ? & _ & ? & _); [|done].
      by apply all_safe_only_uncovers.
    + destruct (start x y s) as [s0|] eqn:Hstart; [|done]. simpl in Hc.
      intros Hall. apply (all_safe_start _ _ _ _ Hstart) in Hall.
      apply start_keeps in Hstart as (_ & _ & Hwf0 & _).
      apply reveal_keeps in Hc as (? & ? & _ & ? & _); [|by apply Hwf0].
      by eapply all_safe_only_uncovers.
  - intros [= <-].
    destruct (cellRightClicked_keeps x y s) as (? & ? & _ & Hget & _).
    apply all_safe_kept; [done..| |]; intros a b; by rewrite Hget.
  - destruct (generateBombs _ _ _ _ _) as [[m rest]|] eqn:Hgen; [|done].
    intros [= <-]. simpl. by eapply all_safe_generateBombs.
  - destruct (floodFill fuel (map s) x y) as [[m calls]|] eqn:Hfill; [|done].
    intros [= <-]. simpl.
    pose proof (floodFill_filled _ _ _ _ _ _ Hwf Hfill) as Hf.
    apply all_safe_only_uncovers; [apply Hf..|]. by eapply only_uncovers_filled.
  - intros [= <-]. simpl.
    destruct (revealBombs_spec (map s)) as (? & ? & _ & ?).
    by apply all_safe_only_uncovers.
  - by intros [= <-].
Qed.

(** X6.  A board on which [checkWin] answers [true] keeps that answer
    along every run of the engine: cells are only ever uncovered, and
    bombs only ever added. *)
Theorem checkWin_stays_true ops :
  ∀ s s', wf (map s) → run s ops = Some s' →
  checkWin (map s) = true → checkWin (map s') = true.
Proof.
  induction ops as [|o ops IH]; intros s s' Hwf Hrun Hwin; simpl in Hrun.
  { by simplify_eq. }
  destruct (step s o) as [s1|] eqn:Hstep; [|done]. simpl in Hrun.
  apply (IH s1); [by apply step_keeps in Hstep as (_ & _ & ? & _)|done|].
  apply checkWin_spec. eapply all_safe_step; [done..|]. by apply checkWin_spec.
Qed.

Lemma checkWin_stays_true_witness :
  ∃ s s',
    run (initialize 4 1 1 None [(3, 0); (0, 0)]) [OpCellClicked 4 0 0] = Some s ∧
    run s [OpCellRightClicked 3 0; OpCellClicked 4 2 0] = Some s' ∧
    (checkWin (map s) = true → checkWin (map s') = true).
Proof.
  eexists. eexists. split; [vm_compute; reflexivity|].
  split; [vm_compute; reflexivity|].
  apply (checkWin_stays_true [OpCellRightClicked 3 0; OpCellClicked 4 2 0]).
  - split; [reflexivity|repeat constructor].
  - vm_compute. reflexivity.
Defined.

(** ** floodFill on the board *)



(** Two boards of the same size with the same cells are the same board. *)
Lemma Map_ext m m' :
  wf m → wf m' → w m' = w m → h m' = h m →
  (∀ a b, cell_at m' a b = cell_at m a b) → m' = m.
Proof.
  destruct m as [w1 h1 g1], m' as [w2 h2 g2].
  intros [Hl1 Hr1] [Hl2 Hr2] Hw Hh Hcells. simpl in *. subst. f_equal.
  apply list_eq. intros i.
  destruct (decide (i < Z.to_nat h1)%nat) as [Hi|Hi].
  2: { rewrite !(proj2 (lookup_ge_None _ _)) by lia. done. }
  destruct (lookup_lt_is_Some_2 g1 i) as [r1 Hrow1]; [lia|].
  destruct (lookup_lt_is_Some_2 g2 i) as [r2 Hrow2]; [lia|].
  rewrite Hrow1, Hrow2. f_equal. apply list_eq. intros j.
  pose proof (Forall_lookup_1 _ _ _ _ Hr1 Hrow1) as Hlen1.
  pose proof (Forall_lookup_1 _ _ _ _ Hr2 Hrow2) as Hlen2.
  simpl in *.
  destruct (decide (j < Z.to_nat w1)%nat) as [Hj|Hj].
  2: { rewrite !(proj2 (lookup_ge_None _ _)) by lia. done. }
  specialize (Hcells (Z.of_nat j) (Z.of_nat i)). unfold cell_at in Hcells.
  assert (inMap (mkMap w1 h1 g1) (Z.of_nat j) (Z.of_nat i) = true) as Hin
    by (apply inMap_spec; simpl; lia).
  assert (inMap (mkMap w1 h1 g2) (Z.of_nat j) (Z.of_nat i) = true) as Hin'
    by (apply inMap_spec; simpl; lia).
  rewrite Hin, Hin' in Hcells. simpl in Hcells.
  rewrite !Nat2Z.id, Hrow1, Hrow2 in Hcells. done.
Qed.

(** X8.  Running [floodFill] again from the same cell changes nothing: on
    the board a [floodFill] has left, a second [floodFill] from the same
    start completes and returns that very board. *)
Theorem floodFill_twice fuel fuel' m x y m' calls :
  wf m → floodFill fuel m x y = Some (m', calls) →
  (Z.to_nat (w m) * Z.to_nat (h m) ≤ fuel')%nat →
  ∃ calls', floodFill fuel' m' x y = Some (m', calls').
Proof.
  intros Hwf Hrun Hfuel.
  destruct (floodFill_uncovers_iff _ _ _ _ _ _ Hwf Hrun) as [Hf Hiff].
  pose proof (filled_wf _ _ _ _ _ Hf) as Hwf'.
  pose proof (filled_w _ _ _ _ _ Hf) as Hw.
  pose proof (filled_h _ _ _ _ _ Hf) as Hh.
  destruct (inMap m' x y) eqn:Hin.
  2: { exists []. by apply floodFill_out. }
  destruct (floodFill_runs fuel' m' x y Hwf' Hin) as (m2 & calls2 & Hrun2 & _);
    [by rewrite Hw, Hh|].
  exists calls2. rewrite Hrun2. do 2 f_equal.
  destruct (floodFill_uncovers_iff _ _ _ _ _ _ Hwf' Hrun2) as [Hf2 Hiff2].
  apply Map_ext; [done|apply Hf2..|].
  intros a b. rewrite (filled_cells _ _ _ _ _ Hf2).
  case_decide as Hd; [|by destruct (cell_at m' a b)].
  assert (flood_reach m x y a b) as Hreach.
  { apply (flood_reach_eq m'); [done..| |].
    - intros a' b'. symmetry. apply only_uncovers_getCell; [|done].
      by eapply only_uncovers_filled.
    - apply Hiff2. destruct Hd as [?|?]; [left|by right]. done. }
  apply Hiff in Hreach. rewrite (filled_cells _ _ _ _ _ Hf).
  rewrite decide_True by tauto. by destruct (cell_at m a b).
Qed.

Lemma floodFill_twice_witness :
  let m := bumps 3 0 (setCell (Map_new 5 1) 3 0 1 1) block_dy_dx in
  ∃ m' calls, floodFill 5 m 0 0 = Some (m', calls) ∧
    ∃ calls', floodFill 5 m' 0 0 = Some (m', calls').
Proof.
  intros m. eexists. eexists. split; [vm_compute; reflexivity|].
  apply (floodFill_twice 5 5 m 0 0 _ [(0, 0); (1, 0); (2, 0)]).
  - apply wf_bumps, wf_setCell, wf_new.
  - vm_compute. reflexivity.
  - vm_compute. lia.
Defined.

(** ** The first reveal *)

Lemma block_count_no_mine m p q :
  (∀ a b, near p q a b → ¬ mined m a b) → block_count m p q = 0.
Proof.
  intros Hno. unfold block_count.
  rewrite (length_filter_agree (λ _, False) _ block_dy_dx).
  - by vm_compute.
  - intros [dx dy] Hd. simpl. split; [done|]. apply Hno.
    apply elem_of_block in Hd. unfold near. lia.
Qed.

(** X9.  The first reveal of a match is safe.  On a board without mines,
    when the placement that [Game.start] runs completes, a reveal of a
    covered, unflagged cell of the board answers [true], does not lose,
    and leaves the cell and all its neighbours on the board uncovered and
    free of mines. *)
Theorem first_reveal_is_safe fuel x y s s1 :
  started (game s) = false → turn_gate (ai s) = true →
  wf (map s) → unmined (map s) → draws_in (map s) (random s) →
  ¬ flagged (map s) x y → getCell (map s) x y 3 = Some 1 →
  start x y s = Some s1 →
  (Z.to_nat (w (map s)) * Z.to_nat (h (map s)) ≤ fuel)%nat →
  ∃ s',
    cellClicked fuel x y s = Some (true, s') ∧
    status (game s') ≠ StatusLost ∧
    ∀ a b, inMap (map s) a b = true → near x y a b →
      getCell (map s') a b 3 = Some 0 ∧ ¬ mined (map s') a b.
Proof.
  intros Hst Hgate Hwf Hun Hdraws Hflag Hcov Hstart Hfuel.
  destruct (start_placed x y s s1 Hwf Hdraws Hstart) as [Hp _].
  destruct Hp as [Hwf1 Hw1 Hh1 _ Hnew _ Hcons Hfl].
  specialize (Hcons (consistent_unmined _ Hun)).
  assert (inMap (map s) x y = true) as Hin.
  { unfold getCell in Hcov. destruct (cell_at (map s) x y) eqn:Hc; [|done].
    by eapply cell_at_inMap. }
  assert (∀ a b, near x y a b → ¬ mined (map s1) a b) as Hsafe.
  { intros a b Hnear Hab. destruct (Hnew a b Hab) as [Hold|Hfree].
    - by apply unmined_not_mined in Hold.
    - apply Hfree, elem_of_forbidden_cells. split; [|done].
      rewrite <- (inMap_eq (map s) (map s1)) by done. by apply mined_inMap. }
  assert (getCell (map s1) x y 0 = Some 0) as Hzero.
  { destruct (cell_at_is_Some (map s1) x y) as [c Hc];
      [done|by rewrite (inMap_eq (map s))|].
    unfold getCell. rewrite Hc. simpl. f_equal.
    rewrite (Hcons x y c Hc). by apply block_count_no_mine. }
  destruct (floodFill_runs fuel (map s1) x y) as (m2 & calls & Hfill & Hf);
    [done|by rewrite (inMap_eq (map s))|by rewrite Hw1, Hh1|].
  assert (∀ a b, inMap (map s) a b = true → near x y a b →
            getCell m2 a b 3 = Some 0 ∧ ¬ mined m2 a b) as Hopen.
  { intros a b Hab Hnear. split.
    - unfold getCell. rewrite (filled_cells _ _ _ _ _ Hf).
      destruct (cell_at_is_Some (map s1) a b) as [c ->];
        [done|by rewrite (inMap_eq (map s))|].
      rewrite decide_True; [done|].
      destruct (decide ((a, b) = (x, y))) as [?|Hne]; [by left|right].
      pose proof (filled_closed _ _ _ _ _ Hf x y (a - x, b - y)) as Hcl.
      simpl in Hcl.
      replace (x + (a - x)) with a in Hcl by lia.
      replace (y + (b - y)) with b in Hcl by lia.
      apply Hcl; [by apply (filled_start _ _ _ _ _ Hf)|done| |].
      + apply elem_of_around. unfold near in Hnear.
        split_and!; [lia..|]. intros [? ?]. apply Hne. f_equal; lia.
      + by rewrite (inMap_eq (map s)).
    - rewrite (mined_same_mines (map s1)); [by apply Hsafe|].
      apply only_uncovers_same_mines; [apply Hf..|].
      by eapply only_uncovers_filled. }
  unfold cellClicked, reveal. rewrite Hgate, Hst. simpl. rewrite Hstart. simpl.
  rewrite bool_decide_eq_false_2.
  2: { unfold flagged in Hflag. by destruct (Hfl x y) as [-> _]. }
  rewrite bool_decide_eq_false_2.
  2: { apply Hsafe. unfold near. lia. }
  rewrite bool_decide_eq_true_2.
  2: { by destruct (Hfl x y) as [_ ->]. }
  rewrite Hfill. simpl.
  apply start_keeps in Hstart as (_ & _ & _ & _ & _ & _ & _ & Hplaying & _).
  destruct (checkWin m2); eexists; (split; [done|]); simpl;
    (split; [|done]).
  - done.
  - by rewrite Hplaying.
Qed.

Lemma first_reveal_is_safe_witness :
  let s := initialize 5 1 1 None [(1, 0); (3, 0)] in
  ∃ s',
    cellClicked 5 0 0 s = Some (true, s') ∧
    status (game s') ≠ StatusLost ∧
    ∀ a b, inMap (map s) a b = true → near 0 0 a b →
      getCell (map s') a b 3 = Some 0 ∧ ¬ mined (map s') a b.
Proof.
  intros s.
  assert (∃ s1, start 0 0 s = Some s1) as [s1 Hstart]
    by (eexists; vm_compute; reflexivity).
  apply (first_reveal_is_safe 5 0 0 s s1).
  - reflexivity.
  - reflexivity.
  - apply wf_new.
  - apply unmined_new.
  - repeat constructor.
  - vm_compute. discriminate.
  - reflexivity.
  - exact Hstart.
  - vm_compute. lia.
Defined.

(** ** Flags *)

Lemma list_alter_fixed {A} (f : A → A) (i : nat) (l : list A) (x : A) :
  l !! i = Some x → f x = x → alter f i l = l.
Proof.
  intros Hl Hf. apply list_eq. intros k.
  destruct (decide (k = i)) as [->|Hne].
  - rewrite list_lookup_alter_eq, Hl. simpl. by rewrite Hf.
  - by rewrite list_lookup_alter_ne.
Qed.

(** A write that is undone by a second write restores the board. *)
Lemma setCell_setCell_restore m x y i v v0 c :
  cell_at m x y = Some c → cell_set (cell_set c i v) i v0 = c →
  setCell (setCell m x y i v) x y i v0 = m.
Proof.
  intros Hc Hback. pose proof (cell_at_inMap _ _ _ _ Hc) as Hin.
  unfold setCell at 1. rewrite inMap_setCell, Hin.
  unfold setCell. rewrite Hin. destruct m as [w0 h0 g]. simpl. f_equal.
  unfold cell_at in Hc. rewrite Hin in Hc. simpl in Hc.
  destruct (g !! Z.to_nat y) as [row|] eqn:Hrow; [|done]. simpl in Hc.
  rewrite list_alter_alter_eq.
  apply (list_alter_fixed _ _ _ row); [done|]. simpl.
  rewrite list_alter_alter_eq. by apply (list_alter_fixed _ _ _ c).
Qed.

(** X10.  Placing a flag and taking it off again is a round trip: on a
    covered, unflagged cell and with a flag left in the budget, two
    [cellRightClicked] on the cell restore the board and the budget. *)
Theorem flag_toggle_round_trip x y s :
  getCell (map s) x y 3 = Some 1 → getCell (map s) x y 2 = Some 0 →
  1 <= flags (game s) →
  cellRightClicked x y (cellRightClicked x y s) = s.
Proof.
  intros Hcov Hflag Hbudget.
  assert (∃ c, cell_at (map s) x y = Some c ∧ flag c = 0 ∧ covered c = 1)
    as (c & Hc & Hf & Hv).
  { unfold getCell in *. destruct (cell_at (map s) x y) as [c|]; [|done].
    exists c. simpl in *. by simplify_eq. }
  unfold cellRightClicked at 2, placeFlag.
  rewrite !bool_decide_eq_true_2 by done.
  assert ((flags (game s) <? 1) = false) as -> by (apply Z.ltb_ge; lia).
  unfold cellRightClicked, removeFlag. simpl.
  rewrite !getCell_setCell, !decide_True by done. rewrite Hc. simpl.
  rewrite Hv. rewrite bool_decide_eq_true_2 by done.
  rewrite (setCell_setCell_restore _ _ _ _ _ _ c); [|done|].
  2: { destruct c. simpl in *. by subst. }
  destruct s as [[st de bo fl sta] m a rnd]. simpl. do 2 f_equal. lia.
Qed.

Lemma flag_toggle_round_trip_witness :
  cellRightClicked 1 0 (cellRightClicked 1 0 (initialize 3 2 2 None []))
  = initialize 3 2 2 None [].
Proof.
  apply flag_toggle_round_trip.
  - reflexivity.
  - reflexivity.
  - simpl. lia.
Defined.

Lemma flagged_setCell m x y v a b :
  is_Some (cell_at m x y) →
  flagged (setCell m x y 2 v) a b ↔
  if decide ((a, b) = (x, y)) then v = 1 else flagged m a b.
Proof.
  intros [c Hc]. unfold flagged. rewrite getCell_setCell.
  case_decide as Heq; [|done]. simplify_eq. rewrite Hc. simpl.
  split; [by intros [= ->]|by intros ->].
Qed.

Lemma count_flags_place m x y :
  is_Some (cell_at m x y) → ¬ flagged m x y →
  count_flags (setCell m x y 2 1) = S (count_flags m).
Proof.
  intros Hc Hn. unfold count_flags.
  rewrite (all_cells_eq m) by (apply w_setCell || apply h_setCell).
  apply (length_filter_gain _ _ _ (x, y)).
  - apply NoDup_all_cells.
  - destruct Hc as [c Hc]. by eapply elem_of_all_cells, cell_at_inMap.
  - done.
  - intros [a b] _. simpl. rewrite flagged_setCell by done.
    case_decide as Heq; [split; [by right|done]|].
    split; [by left|]. by intros [?|?].
Qed.

Lemma count_flags_remove m x y :
  is_Some (cell_at m x y) → flagged m x y →
  count_flags m = S (count_flags (setCell m x y 2 0)).
Proof.
  intros Hc Hfl. unfold count_flags.
  rewrite (all_cells_eq m (setCell m x y 2 0))
    by (apply w_setCell || apply h_setCell).
  apply (length_filter_gain _ _ _ (x, y)).
  - apply NoDup_all_cells.
  - destruct Hc as [c Hc]. by eapply elem_of_all_cells, cell_at_inMap.
  - simpl. rewrite flagged_setCell by done. by rewrite decide_True.
  - intros [a b] _. simpl. rewrite flagged_setCell by done.
    case_decide as Heq; [simplify_eq; split; [by right|done]|].
    split; [by left|]. by intros [?|?].
Qed.

Lemma count_flags_same m m' :
  w m' = w m → h m' = h m →
  (∀ a b, getCell m' a b 2 = getCell m a b 2) →
  count_flags m' = count_flags m.
Proof.
  intros Hw Hh Hget. unfold count_flags. rewrite (all_cells_eq m m') by done.
  apply length_filter_agree. intros [a b] _. unfold flagged. simpl.
  by rewrite Hget.
Qed.

(** Every step but a flag action keeps every flag attribute. *)
Lemma step_keeps_flag_attr s o s' :
  wf (map s) → step s o = Some s' →
  (∀ x y, o ≠ OpCellRightClicked x y) →
  ∀ a b, getCell (map s') a b 2 = getCell (map s) a b 2.
Proof.
  intros Hwf Hstep Hno a b.
  destruct o as [fuel x y|x y|n sx sy|fuel x y| |env]; simpl in Hstep.
  - destruct (cellClicked fuel x y s) as [[r s1]|] eqn:Hc; simplify_eq/=.
    unfold cellClicked in Hc. destruct (negb (turn_gate (ai s))); [by simplify_eq|].
    destruct (started (game s)); simpl in Hc.
    + apply reveal_keeps in Hc as (_ & _ & _ & Hu & _); [|done].
      by apply only_uncovers_getCell.
    + destruct (start x y s) as [s0|] eqn:Hstart; [|done]. simpl in Hc.
      apply start_keeps in Hstart as (_ & _ & Hwf0 & Hfl & _).
      apply reveal_keeps in Hc as (_ & _ & _ & Hu & _); [|by apply Hwf0].
      rewrite (only_uncovers_getCell (map s0)) by done. apply Hfl.
  - by destruct (Hno x y).
  - unfold generateBombs in Hstep.
    destruct (generateBombs_loop _ _ _ _ _) as [[m rest]|] eqn:Hgen; simplify_eq/=.
    apply generateBombs_loop_keeps in Hgen as (_ & _ & _ & Hfl). apply Hfl.
  - destruct (floodFill fuel (map s) x y) as [[m calls]|] eqn:Hfill; simplify_eq/=.
    apply only_uncovers_getCell; [|done].
    eapply only_uncovers_filled. by eapply floodFill_filled.
  - simplify_eq/=. apply only_uncovers_getCell; [apply revealBombs_spec|done].
  - by simplify_eq/=.
Qed.

Lemma binary_flags_rightclick x y s :
  binary_flags (map s) → binary_flags (map (cellRightClicked x y s)).
Proof.
  intros Hbin a b v. unfold cellRightClicked, placeFlag.
  destruct (bool_decide (getCell (map s) x y 3 = Some 1)); [|apply Hbin].
  destruct (bool_decide (getCell (map s) x y 2 = Some 0)).
  - destruct (flags (game s) <? 1); simpl; [apply Hbin|].
    rewrite getCell_setCell. case_decide; [|apply Hbin].
    destruct (cell_at (map s) a b); simpl; [|done]. intros [= <-]. by right.
  - simpl. rewrite getCell_setCell. case_decide; [|apply Hbin].
    destruct (cell_at (map s) a b); simpl; [|done]. intros [= <-]. by left.
Qed.

Lemma binary_flags_run ops :
  ∀ s s', wf (map s) → binary_flags (map s) → run s ops = Some s' →
  binary_flags (map s').
Proof.
  induction ops as [|o ops IH]; intros s s' Hwf Hbin Hrun; simpl in Hrun.
  { by simplify_eq. }
  destruct (step s o) as [s1|] eqn:Hstep; [|done]. simpl in Hrun.
  apply (IH s1); [by apply step_keeps in Hstep as (_ & _ & ? & _)| |done].
  destruct o as [fuel x y|x y|n sx sy|fuel x y| |env];
    try (intros a b v; rewrite (step_keeps_flag_attr _ _ _ Hwf Hstep) by done;
         apply Hbin).
  simpl in Hstep. simplify_eq. by apply binary_flags_rightclick.
Qed.

Lemma binary_flags_reachable s : reachable s → binary_flags (map s).
Proof.
  intros (width & height & nbombs & env & draws & ops & _ & Hrun).
  apply (binary_flags_run ops (initialize width height nbombs env draws));
    [apply wf_new| |done].
  intros a b v. unfold getCell. simpl.
  destruct (inMap (Map_new width height) a b) eqn:Hin.
  - rewrite cell_at_new by done. simpl. intros [= <-]. by left.
  - unfold cell_at. by rewrite Hin.
Qed.

(** X11.  The flag budget and the flags on the board balance: on every
    board reached from its construction a flag action keeps the sum of
    [flags] and the number of flagged cells, and so does every reveal of
    a started match. *)
Theorem flag_balance s :
  reachable s →
  (∀ x y,
     flags (game (cellRightClicked x y s))
       + Z.of_nat (count_flags (map (cellRightClicked x y s)))
     = flags (game s) + Z.of_nat (count_flags (map s))) ∧
  (∀ fuel x y r s',
     started (game s) = true → cellClicked fuel x y s = Some (r, s') →
     flags (game s') + Z.of_nat (count_flags (map s'))
     = flags (game s) + Z.of_nat (count_flags (map s))).
Proof.
  intros Hreach. pose proof (binary_flags_reachable s Hreach) as Hbin.
  apply sound_reachable in Hreach as (Hwf & _ & _). split.
  - intros x y. unfold cellRightClicked, placeFlag, removeFlag.
    destruct (bool_decide (getCell (map s) x y 3 = Some 1)) eqn:Hcov; [|done].
    apply bool_decide_eq_true in Hcov.
    assert (is_Some (cell_at (map s) x y)) as Hc.
    { unfold getCell in Hcov. by destruct (cell_at (map s) x y). }
    destruct (bool_decide (getCell (map s) x y 2 = Some 0)) eqn:Hfl.
    + apply bool_decide_eq_true in Hfl.
      destruct (flags (game s) <? 1); simpl; [done|].
      rewrite count_flags_place; [lia|done|]. unfold flagged. by rewrite Hfl.
    + apply bool_decide_eq_false in Hfl. simpl.
      rewrite (count_flags_remove (map s) x y); [lia|done|].
      unfold flagged. destruct Hc as [c Hc].
      assert (getCell (map s) x y 2 = Some (flag c)) as Hget
        by (unfold getCell; by rewrite Hc).
      destruct (Hbin x y _ Hget) as [Hz|Ho]; rewrite Hget in *; congruence.
  - intros fuel x y r s' Hst Hclick. unfold cellClicked in Hclick.
    destruct (negb (turn_gate (ai s))); [by simplify_eq|].
    rewrite Hst in Hclick. simpl in Hclick.
    apply reveal_keeps in Hclick as (Hw & Hh & _ & Hu & _ & -> & _); [|done].
    rewrite (count_flags_same (map s)); [done..|].
    intros a b. by apply only_uncovers_getCell.
Qed.

Lemma flag_balance_witness :
  ∃ s,
    run (initialize 5 1 1 None [(3, 0)]) [OpCellClicked 5 0 0; OpCellRightClicked 4 0]
      = Some s ∧
    ∀ x y,
      flags (game (cellRightClicked x y s))
        + Z.of_nat (count_flags (map (cellRightClicked x y s)))
      = flags (game s) + Z.of_nat (count_flags (map s)).
Proof.
  eexists. split; [vm_compute; reflexivity|].
  refine (proj1 (flag_balance _ _)).
  exists 5, 1, 1, None, [(3, 0)], [OpCellClicked 5 0 0; OpCellRightClicked 4 0].
  split; [repeat constructor|vm_compute; reflexivity].
Defined.

(** X12.  A flag on an uncovered cell is there for good: once a flagged
    cell is uncovered (as flood fill does), no run of the engine removes
    the flag or covers the cell again. *)
Theorem flag_on_uncovered_cell_is_stuck ops :
  ∀ s s' x y, wf (map s) → run s ops = Some s' →
  flagged (map s) x y → getCell (map s) x y 3 = Some 0 →
  flagged (map s') x y ∧ getCell (map s') x y 3 = Some 0.
Proof.
  induction ops as [|o ops IH]; intros s s' x y Hwf Hrun Hfl Hcov;
    simpl in Hrun.
  { by simplify_eq. }
  destruct (step s o) as [s1|] eqn:Hstep; [|done]. simpl in Hrun.
  pose proof (step_keeps _ _ _ Hwf Hstep) as (_ & _ & Hwf1 & Hk).
  apply (IH s1); [done|done| |by apply Hk].
  unfold flagged in *.
  destruct o as [fuel a b|a b|n sx sy|fuel a b| |env];
    try (by rewrite (step_keeps_flag_attr _ _ _ Hwf Hstep)).
  simpl in Hstep. simplify_eq.
  destruct (decide ((x, y) = (a, b))) as [Heq|Hne].
  - simplify_eq. unfold cellRightClicked.
    rewrite bool_decide_eq_false_2; [done|]. by rewrite Hcov.
  - destruct (cellRightClicked_keeps a b s) as (_ & _ & _ & _ & Hcell & _).
    unfold getCell. by rewrite Hcell.
Qed.

Lemma flag_on_uncovered_cell_is_stuck_witness :
  let s := with_map (mkState (mkGame true false 0 0 StatusPlaying)
                             (Map_new 3 1) None [])
                    (setCell (Map_new 3 1) 1 0 2 1) in
  ∃ s1 s',
    run s [OpCellClicked 3 0 0] = Some s1 ∧
    run s1 [OpCellRightClicked 1 0; OpCellClicked 3 1 0] = Some s' ∧
    (flagged (map s1) 1 0 → getCell (map s1) 1 0 3 = Some 0 →
     flagged (map s') 1 0 ∧ getCell (map s') 1 0 3 = Some 0).
Proof.
  eexists. eexists. split; [vm_compute; reflexivity|].
  split; [vm_compute; reflexivity|].
  apply (flag_on_uncovered_cell_is_stuck
           [OpCellRightClicked 1 0; OpCellClicked 3 1 0]).
  - split; [reflexivity|repeat constructor].
  - vm_compute. reflexivity.
Defined.

(** ** The mines of a started match *)

(** X13.  During a started match the mines and the numbers are fixed: no
    reveal and no flag action changes the bomb or number attribute of any
    cell, nor the size of the board. *)
Theorem mines_fixed_in_started_match s x y :
  wf (map s) → started (game s) = true →
  same_mines (map s) (map (cellRightClicked x y s)) ∧
  ∀ fuel r s', cellClicked fuel x y s = Some (r, s') →
    same_mines (map s) (map s').
Proof.
  intros Hwf Hst. split.
  - destruct (cellRightClicked_keeps x y s) as (Hw & Hh & _ & Hget & _).
    split_and!; [done..|]. intros a b. by rewrite !Hget.
  - intros fuel r s' Hclick. unfold cellClicked in Hclick.
    destruct (negb (turn_gate (ai s))); [simplify_eq; apply same_mines_refl|].
    rewrite Hst in Hclick. simpl in Hclick.
    apply reveal_keeps in Hclick as (Hw & Hh & _ & Hu & _); [|done].
    by apply only_uncovers_same_mines.
Qed.

Lemma mines_fixed_in_started_match_witness :
  ∃ s,
    run (initialize 5 1 1 None [(3, 0)]) [OpCellClicked 5 0 0] = Some s ∧
    same_mines (map s) (map (cellRightClicked 4 0 s)) ∧
    ∀ fuel r s', cellClicked fuel 4 0 s = Some (r, s') →
      same_mines (map s) (map s').
Proof.
  eexists. split; [vm_compute; reflexivity|].
  apply mines_fixed_in_started_match.
  - split; [reflexivity|repeat constructor].
  - reflexivity.
Defined.

(** ** Turns *)

(** X14.  With a difficulty chosen ([aiMode] a non-empty string) and the
    turn at the player, a reveal that answers [true] and does not end the
    match hands the turn to the AI: every further reveal answers [false]
    and changes nothing, until the timers of [aiMove] give the turn
    back. *)
Theorem no_second_move_in_ai_mode fuel x y s s' a mode :
  ai s = Some a → aiMode a = Some mode → mode ≠ "" →
  currentTurn a = "player" →
  cellClicked fuel x y s = Some (true, s') → started (game s') = true →
  ∀ fuel' x' y', cellClicked fuel' x' y' s' = Some (false, s').
Proof.
  intros Hai Hmode _ Hturn Hclick Hst fuel' x' y'.
  assert (ai s' = Some (mkAI "ai" (Some mode) true)) as Hai'.
  { unfold cellClicked in Hclick.
    destruct (negb (turn_gate (ai s))); [done|].
    assert (∀ s1, ai s1 = ai s → reveal fuel x y s1 = Some (true, s') →
              ai s' = Some (mkAI "ai" (Some mode) true)) as Hrev.
    { intros s1 Hai1. unfold reveal.
      repeat (destruct (bool_decide _); [done|]).
      destruct (bool_decide _); [|done].
      destruct (floodFill fuel (map s1) x y) as [[m2 calls]|]; [|done]. simpl.
      destruct (checkWin m2); intros [= <-]; simpl in *; [done|].
      rewrite Hai1, Hai. unfold after_player_move, endPlayerTurn.
      by rewrite Hmode, Hturn. }
    destruct (started (game s)); simpl in Hclick; [by apply (Hrev s)|].
    destruct (start x y s) as [s1|] eqn:Hstart; [|done]. simpl in Hclick.
    apply (Hrev s1); [|done].
    by apply start_keeps in Hstart as (_ & _ & _ & _ & _ & _ & _ & _ & ?). }
  unfold cellClicked. by rewrite Hai'.
Qed.

Lemma no_second_move_in_ai_mode_witness :
  let s := initialize 5 1 1 (Some (mkAI "player" (Some "easy") false)) [(3, 0)] in
  ∃ s', cellClicked 5 0 0 s = Some (true, s') ∧
    ∀ fuel' x' y', cellClicked fuel' x' y' s' = Some (false, s').
Proof.
  intros s. eexists. split; [vm_compute; reflexivity|].
  apply (no_second_move_in_ai_mode 5 0 0 s _
           (mkAI "player" (Some "easy") false) "easy").
  - reflexivity.
  - reflexivity.
  - discriminate.
  - reflexivity.
  - vm_compute. reflexivity.
  - reflexivity.
Defined.

(** ** What the buttons show *)

Lemma around_count_bounds m a b : 0 <= around_count m a b <= 8.
Proof.
  unfold around_count. split; [lia|].
  pose proof (length_filter (λ d, mined m (a + d.1) (b + d.2)) around_dx_dy)
    as Hle.
  change (length around_dx_dy) with 8%nat in Hle. lia.
Qed.

(** X15.  On every board reached from its construction the button of an
    uncovered cell that holds neither flag nor bomb shows the number of
    mined cells among its eight neighbours: a number from 1 to 8 in the
    colour of that number, or the empty text when no neighbour is mined;
    and the button is disabled. *)
Theorem button_shows_the_neighbour_count s a b btn :
  reachable s → inMap (map s) a b = true →
  ¬ flagged (map s) a b → getCell (map s) a b 3 = Some 0 →
  ¬ mined (map s) a b →
  0 <= around_count (map s) a b <= 8 ∧
  updateCell (map s) a b btn =
  if 0 <? around_count (map s) a b
  then mkButton (TextNumber (around_count (map s) a b))
                (number_color (around_count (map s) a b) "") true
  else mkButton TextEmpty (color btn) true.
Proof.
  intros Hreach Hin Hflag Hcov Hmined.
  apply sound_reachable in Hreach as (Hwf & Hcons & _).
  pose proof (around_count_bounds (map s) a b) as Hb. split; [done|].
  destruct (cell_at_is_Some (map s) a b Hwf Hin) as [c Hc].
  assert (getCell (map s) a b 0 = Some (around_count (map s) a b)) as Hnum.
  { unfold getCell. rewrite Hc. simpl. f_equal.
    rewrite (Hcons a b c Hc), block_count_around.
    rewrite decide_False by done. lia. }
  unfold updateCell.
  rewrite bool_decide_eq_false_2 by done.
  rewrite bool_decide_eq_false_2 by (by rewrite Hcov).
  rewrite bool_decide_eq_false_2 by done.
  rewrite Hnum. destruct (0 <? around_count (map s) a b) eqn:Hpos; [|done].
  apply Z.ltb_lt in Hpos. f_equal.
  assert (around_count (map s) a b = 1 ∨ around_count (map s) a b = 2 ∨
          around_count (map s) a b = 3 ∨ around_count (map s) a b = 4 ∨
          around_count (map s) a b = 5 ∨ around_count (map s) a b = 6 ∨
          around_count (map s) a b = 7 ∨ around_count (map s) a b = 8)
    as Hn by lia.
  repeat (destruct Hn as [ -> | Hn]; [done|]). by rewrite Hn.
Qed.

Lemma button_shows_the_neighbour_count_witness :
  ∃ s,
    run (initialize 5 1 1 None [(3, 0)]) [OpCellClicked 5 0 0] = Some s ∧
    0 <= around_count (map s) 2 0 <= 8 ∧
    updateCell (map s) 2 0 (mkButton TextCovered "" false) =
    if 0 <? around_count (map s) 2 0
    then mkButton (TextNumber (around_count (map s) 2 0))
                  (number_color (around_count (map s) 2 0) "") true
    else mkButton TextEmpty "" true.
Proof.
  eexists. split; [vm_compute; reflexivity|].
  apply (button_shows_the_neighbour_count _ 2 0 (mkButton TextCovered "" false)).
  - exists 5, 1, 1, None, [(3, 0)], [OpCellClicked 5 0 0].
    split; [repeat constructor|vm_compute; reflexivity].
  - reflexivity.
  - vm_compute. discriminate.
  - vm_compute. reflexivity.
  - vm_compute. discriminate.
Defined.

(** X16.  After [revealBombs] the button of every mined cell shows the
    bomb, or its flag when the cell is flagged: never the covered tile
    and never a number. *)
Theorem mines_are_shown_after_revealBombs m a b btn :
  mined m a b →
  textContent (updateCell (revealBombs m) a b btn) =
  if decide (flagged m a b) then TextFlag else TextBomb.
Proof.
  intros Hab.
  assert (getCell (revealBombs m) a b 3 = Some 0) as Hcov.
  { unfold getCell. rewrite (cell_at_revealBombs m a b).
    destruct (decide (mined m a b)) as [_|?]; [|done].
    unfold mined, getCell in Hab. by destruct (cell_at m a b). }
  assert (∀ i, i ≠ 3 → getCell (revealBombs m) a b i = getCell m a b i)
    as Hsame.
  { intros i Hi. apply only_uncovers_getCell; [apply revealBombs_spec|done]. }
  unfold updateCell. destruct (decide (flagged m a b)) as [Hf|Hf].
  - rewrite bool_decide_eq_true_2; [done|]. by rewrite Hsame.
  - rewrite bool_decide_eq_false_2 by (by rewrite Hsame).
    rewrite bool_decide_eq_false_2 by (by rewrite Hcov).
    rewrite bool_decide_eq_true_2; [done|]. by rewrite Hsame.
Qed.

Lemma mines_are_shown_after_revealBombs_witness :
  let m := bumps 3 0 (setCell (Map_new 5 1) 3 0 1 1) block_dy_dx in
  textContent (updateCell (revealBombs m) 3 0 (mkButton TextCovered "" false)) =
  if decide (flagged m 3 0) then TextFlag else TextBomb.
Proof.
  apply mines_are_shown_after_revealBombs. vm_compute. reflexivity.
Defined.

(** ** A match without mines *)

Lemma generateBombs_nothing_to_place m bombCount startX startY draws :
  bombCount <= 0 →
  generateBombs m bombCount startX startY draws = Some (m, draws).
Proof.
  intros Hle. unfold generateBombs.
  assert ((0 <? bombCount) = false) as Hlt by (apply Z.ltb_ge; lia).
  destruct draws; simpl; by rewrite Hlt.
Qed.

(** On a board whose numbers are all 0 the flood reaches every cell: walk
    from the start towards the cell, one king's move at a time. *)
Lemma flood_reach_zero_board m x y :
  (∀ p q, inMap m p q = true → getCell m p q 0 = Some 0) →
  inMap m x y = true →
  ∀ a b, inMap m a b = true → flood_reach m x y a b.
Proof.
  intros Hzero Hxy.
  assert (∀ n a b,
            Z.to_nat (Z.max (Z.abs (a - x)) (Z.abs (b - y))) = n →
            inMap m a b = true → flood_reach m x y a b) as Hwalk.
  { induction n as [n IH] using lt_wf_ind. intros a b Hn Hab.
    destruct (decide ((a, b) = (x, y))) as [Heq|Hne].
    { simplify_eq. by apply reach_start. }
    assert (a ≠ x ∨ b ≠ y) as Hmove.
    { destruct (decide (a = x)) as [->|?]; [|by left].
      right. intros ->. by apply Hne. }
    apply inMap_spec in Hab. apply inMap_spec in Hxy.
    set (a' := a - Z.sgn (a - x)). set (b' := b - Z.sgn (b - y)).
    assert (inMap m a' b' = true) as Hin'.
    { apply inMap_spec. unfold a', b'. lia. }
    assert (flood_reach m x y a' b') as Hprev.
    { apply (IH (Z.to_nat (Z.max (Z.abs (a' - x)) (Z.abs (b' - y)))));
        [unfold a', b'; lia|done|done]. }
    pose proof (reach_step m x y a' b' (Z.sgn (a - x), Z.sgn (b - y)) Hprev)
      as Hstep.
    simpl in Hstep.
    replace (a' + Z.sgn (a - x)) with a in Hstep by (unfold a'; lia).
    replace (b' + Z.sgn (b - y)) with b in Hstep by (unfold b'; lia).
    apply Hstep; [by apply Hzero| |apply inMap_spec; lia].
    apply elem_of_around. lia. }
  intros a b. by apply (Hwalk _ a b eq_refl).
Qed.

(** X17.  A match without mines is won by its first reveal: with
    [bombs <= 0] the placement of [Game.start] draws nothing, and the
    reveal of a covered, unflagged cell of the board answers [true],
    uncovers every cell of the board and ends the match as won. *)
Theorem match_without_mines_is_won_at_once fuel x y s :
  started (game s) = false → turn_gate (ai s) = true →
  wf (map s) → unmined (map s) → bombs (game s) <= 0 →
  ¬ flagged (map s) x y → getCell (map s) x y 3 = Some 1 →
  (Z.to_nat (w (map s)) * Z.to_nat (h (map s)) ≤ fuel)%nat →
  ∃ s',
    cellClicked fuel x y s = Some (true, s') ∧
    status (game s') = StatusWon ∧ started (game s') = false ∧
    random s' = random s ∧
    ∀ a b, inMap (map s) a b = true → getCell (map s') a b 3 = Some 0.
Proof.
  intros Hst Hgate Hwf Hun Hbombs Hflag Hcov Hfuel.
  assert (inMap (map s) x y = true) as Hin.
  { unfold getCell in Hcov. destruct (cell_at (map s) x y) eqn:Hc; [|done].
    by eapply cell_at_inMap. }
  assert (∀ p q, inMap (map s) p q = true → getCell (map s) p q 0 = Some 0)
    as Hzero.
  { intros p q Hpq. destruct (cell_at_is_Some (map s) p q Hwf Hpq) as [c Hc].
    unfold getCell. rewrite Hc. simpl. by destruct (Hun p q c Hc) as [-> _]. }
  destruct (floodFill_runs fuel (map s) x y Hwf Hin Hfuel)
    as (m2 & calls & Hfill & Hf).
  destruct (floodFill_uncovers_iff _ _ _ _ _ _ Hwf Hfill) as [_ Hiff].
  assert (∀ a b, inMap (map s) a b = true → getCell m2 a b 3 = Some 0)
    as Hopen.
  { intros a b Hab. unfold getCell. rewrite (filled_cells _ _ _ _ _ Hf).
    destruct (cell_at_is_Some (map s) a b Hwf Hab) as [c ->].
    pose proof (flood_reach_zero_board _ _ _ Hzero Hin a b Hab) as Hreach.
    apply Hiff in Hreach. rewrite decide_True; [done|]. tauto. }
  assert (checkWin m2 = true) as Hwin.
  { apply checkWin_spec. intros a b Hab [_ Hc].
    rewrite Hopen in Hc; [done|].
    rewrite <- Hab. symmetry. apply inMap_eq; apply Hf. }
  unfold cellClicked, start, reveal. rewrite Hgate, Hst. simpl.
  rewrite generateBombs_nothing_to_place by done. simpl.
  rewrite bool_decide_eq_false_2 by done.
  rewrite bool_decide_eq_false_2 by (by apply unmined_not_mined).
  rewrite bool_decide_eq_true_2 by done.
  rewrite Hfill. simpl. rewrite Hwin. eexists. split; [done|]. simpl.
  by split_and!.
Qed.

Lemma match_without_mines_is_won_at_once_witness :
  let s := initialize 3 2 0 None [] in
  ∃ s',
    cellClicked 6 1 1 s = Some (true, s') ∧
    status (game s') = StatusWon ∧ started (game s') = false ∧
    random s' = random s ∧
    ∀ a b, inMap (map s) a b = true → getCell (map s') a b 3 = Some 0.
Proof.
  intros s. apply (match_without_mines_is_won_at_once 6 1 1 s).
  - reflexivity.
  - reflexivity.
  - apply wf_new.
  - apply unmined_new.
  - simpl. lia.
  - vm_compute. discriminate.
  - reflexivity.
  - vm_compute. lia.
Defined.
